(** * RealtimeSTT: the capture / recognition / dispatch pipeline of
    [realtime_stt.py], embedded as an executable state machine.

    The object's fields, the two worker loops, the device callback and the
    [start] / [stop] / [main] lifecycle are translated from the Python
    source.  The collaborators that live outside the repository (the Vosk
    recognizer, the consumer callback) are interfaces, given as type
    classes; the sound device is a log of the calls made on it. *)

From Stdlib Require Import ZArith NArith String Ascii Lia.
From stdpp Require Import base list.

Local Open Scope Z_scope.

(* ===================================================================== *)
(** ** Python values                                                      *)
(* ===================================================================== *)

(** A Python [str] is a sequence of Unicode code points. *)
Definition str := list N.

(** A string literal of the source, as code points. *)
Definition u (s : string) : str := map N_of_ascii (list_ascii_of_string s).

(** A Python [bytes] object: an immutable sequence of bytes. *)
Definition bytes := list Byte.byte.

(** [str.isspace] on one code point, as [str.strip()] with no argument
    uses it: the Unicode white-space table of the interpreter. *)
Definition isspace (c : N) : bool :=
  (((9 <=? c) && (c <=? 13)) || ((28 <=? c) && (c <=? 32))
   || (c =? 133) || (c =? 160) || (c =? 5760)
   || ((8192 <=? c) && (c <=? 8202))
   || (c =? 8232) || (c =? 8233) || (c =? 8239) || (c =? 8287)
   || (c =? 12288))%N.

Fixpoint lstrip (s : str) : str :=
  match s with
  | c :: s' => if isspace c then lstrip s' else s
  | [] => []
  end.

Definition rstrip (s : str) : str := rev (lstrip (rev s)).

(** [s.strip()] *)
Definition strip (s : str) : str := rstrip (lstrip s).

(** Truth value of a [str]: non-empty. *)
Definition str_bool (s : str) : bool :=
  match s with [] => false | _ :: _ => true end.

(** What [json.loads] can return. *)
#[warnings="-register-all"]
Inductive json :=
| JNull
| JBool (b : bool)
| JInt (z : Z)
| JFloat (literal : str)
| JStr (s : str)
| JList (l : list json)
| JDict (items : list (str * json)).

(** [type(v).__name__] *)
Definition type_name (v : json) : str :=
  match v with
  | JNull => u "NoneType"
  | JBool _ => u "bool"
  | JInt _ => u "int"
  | JFloat _ => u "float"
  | JStr _ => u "str"
  | JList _ => u "list"
  | JDict _ => u "dict"
  end.

Fixpoint str_eqb (a b : str) : bool :=
  match a, b with
  | [], [] => true
  | x :: a', y :: b' => (x =? y)%N && str_eqb a' b'
  | _, _ => false
  end.

(** Lookup of a key among the items of a [dict]. *)
Fixpoint dict_lookup (k : str) (items : list (str * json)) : option json :=
  match items with
  | [] => None
  | (k', v) :: rest => if str_eqb k k' then Some v else dict_lookup k rest
  end.

(* ===================================================================== *)
(** ** Exceptions and the state-and-exception monad                       *)
(* ===================================================================== *)

(** The exception classes the handlers of the source tell apart:
    [queue.Empty], any other instance of [Exception] (with its [str(e)]),
    and the two classes that derive from [BaseException] only. *)
Inductive exn :=
| Empty
| Exception (msg : str)
| KeyboardInterrupt
| SystemExit (code : Z).

(** [isinstance(e, Exception)]: what [except Exception] catches. *)
Definition is_Exception (e : exn) : bool :=
  match e with
  | Empty | Exception _ => true
  | KeyboardInterrupt | SystemExit _ => false
  end.

(** [str(e)] *)
Definition exn_str (e : exn) : str :=
  match e with
  | Empty => []
  | Exception msg => msg
  | KeyboardInterrupt => []
  | SystemExit code => []
  end.

Inductive outcome (A : Type) :=
| Ok (a : A)
| Raise (e : exn).
Arguments Ok {A} a.
Arguments Raise {A} e.

Definition AttributeError (v : json) (attr : string) : exn :=
  Exception (u "'" ++ type_name v ++ u "' object has no attribute '"
             ++ u attr ++ u "'").

(** [result.get(key, default)] *)
Definition py_get (result : json) (key : str) (default : json) : outcome json :=
  match result with
  | JDict items =>
      Ok (match dict_lookup key items with Some v => v | None => default end)
  | _ => Raise (AttributeError result "get")
  end.

(** [v.strip()] *)
Definition py_strip (v : json) : outcome str :=
  match v with
  | JStr s => Ok (strip s)
  | _ => Raise (AttributeError v "strip")
  end.

(** [result[key]] *)
Definition py_getitem (result : json) (key : str) : outcome json :=
  match result with
  | JDict items =>
      match dict_lookup key items with
      | Some v => Ok v
      | None => Raise (Exception (u "'" ++ key ++ u "'"))
      end
  | JStr _ => Raise (Exception (u "string indices must be integers"))
  | JList _ => Raise (Exception (u "list indices must be integers or slices, not str"))
  | _ => Raise (Exception (u "'" ++ type_name result ++ u "' object is not subscriptable"))
  end.

(* ===================================================================== *)
(** ** External collaborators                                             *)
(* ===================================================================== *)

(** The Vosk engine: [Model(path)], [KaldiRecognizer(model, rate)],
    [SetWords], [AcceptWaveform] and [Result].  The recognizer is stateful,
    so each call returns the recognizer after the call.  [Result] stands for
    [json.loads(self.recognizer.Result())]: the decoded document, or the
    exception that either call raised. *)
Class Vosk (M R : Type) := {
  Model : str -> outcome M;
  KaldiRecognizer : M -> Z -> outcome R;
  SetWords : R -> bool -> R * outcome unit;
  AcceptWaveform : R -> bytes -> R * outcome bool;
  Result : R -> R * outcome json;
}.

(** A consumer callback given to the constructor: a callable with its own
    state, which returns or raises. *)
Class Consumer (C : Type) := {
  call : C -> str -> C * outcome unit;
}.

(** [sounddevice.CallbackFlags]: the PortAudio status bits of a block;
    the object is true when a bit is set. *)
Definition CallbackFlags := N.
Definition flags_bool (status : CallbackFlags) : bool := negb (status =? 0)%N.

Inductive sample_format := int16.

(** The function registered with the stream. *)
Inductive handler := audio_callback_handler.

(** A [sounddevice.RawInputStream], as the arguments it was created with
    and the number that tells it from the other streams opened. *)
Record RawInputStream := {
  handle : nat;
  samplerate : Z;
  blocksize : Z;
  dtype : sample_format;
  channels : Z;
  stream_callback : handler;
}.

(* ===================================================================== *)
(** ** Observable events                                                  *)
(* ===================================================================== *)

Inductive level := INFO | WARNING | ERROR.

(** A log message: a formatted text; the status warning keeps the status
    object that the f-string interpolates. *)
Inductive message :=
| Msg (text : str)
| MsgStatus (prefix : str) (status : CallbackFlags).

Inductive stage := process_audio | output_processor.

Inductive event :=
| Print (line : str)                 (* print(...) *)
| Log (lvl : level) (msg : message)  (* self.logger.<lvl>(...) *)
| DevOpen (s : RawInputStream)       (* sd.RawInputStream(...) *)
| DevStart (h : nat)                 (* stream.start() *)
| DevStop (h : nat)                  (* stream.stop() *)
| DevClose (h : nat)                 (* stream.close() *)
| ThreadStart (target : stage)       (* threading.Thread(...).start() *)
| AudioPut (b : bytes)               (* self.audio_queue.put(b) *)
| AcceptWaveformCall (b : bytes)     (* self.recognizer.AcceptWaveform(b) *)
| ResultPut (t : str)                (* self.result_queue.put(t) *)
| CallbackCall (t : str).            (* self.callback(t) *)

(* ===================================================================== *)
(** ** Worker threads                                                     *)
(* ===================================================================== *)

(** Where a worker loop stands: about to test [self.running], blocked in
    [get(timeout=2)], holding the item it dequeued, returned from the loop,
    or killed by an exception that no handler caught. *)
Inductive pc (A : Type) :=
| AtWhile
| InGet
| Got (x : A)
| Returned
| Died (e : exn).
Arguments AtWhile {A}.
Arguments InGet {A}.
Arguments Got {A} x.
Arguments Returned {A}.
Arguments Died {A} e.

Inductive thread :=
| process_audio_thread (p : pc bytes)
| output_processor_thread (p : pc str).

(** What the rest of the program does to the object and its threads. *)
Inductive action :=
| CallStart
| CallStop
| Deliver (indata : bytes) (frames : Z) (time : Z) (status : CallbackFlags)
| Run (i : nat).

(* ===================================================================== *)
(** ** The object and the world around it                                 *)
(* ===================================================================== *)

(** [self.callback]: the function given to the constructor, or
    [self._default_callback]. *)
Inductive callback_t (C : Type) :=
| default_callback
| user_callback (c : C).
Arguments default_callback {C}.
Arguments user_callback {C} c.

(** The fields of a [RealtimeSTT] object.  [stream] is [None] until
    [start] assigns the attribute: [hasattr(self, 'stream')]. *)
Record RealtimeSTT (M R C : Type) := {
  sample_rate : Z;
  block_size : Z;
  running : bool;
  audio_queue : list bytes;
  result_queue : list str;
  model : M;
  recognizer : R;
  callback : callback_t C;
  stream : option RawInputStream;
}.
Arguments sample_rate {M R C} _.
Arguments block_size {M R C} _.
Arguments running {M R C} _.
Arguments audio_queue {M R C} _.
Arguments result_queue {M R C} _.
Arguments model {M R C} _.
Arguments recognizer {M R C} _.
Arguments callback {M R C} _.
Arguments stream {M R C} _.

(** The object, the threads started so far, and everything the program
    did that can be seen from outside, oldest first. *)
Record World (M R C : Type) := {
  self : RealtimeSTT M R C;
  threads : list thread;
  trace : list event;
}.
Arguments self {M R C} _.
Arguments threads {M R C} _.
Arguments trace {M R C} _.

(** A method body: it reads and changes the state, and returns or raises. *)
Definition prog (S A : Type) : Type := S -> S * outcome A.

Definition ret {S A} (a : A) : prog S A := fun w => (w, Ok a).
Definition raise {S A} (e : exn) : prog S A := fun w => (w, Raise e).
Definition bind {S A B} (m : prog S A) (k : A -> prog S B) : prog S B :=
  fun w => match m w with
           | (w', Ok a) => k a w'
           | (w', Raise e) => (w', Raise e)
           end.

Notation "x <- m ;; k" := (bind m (fun x => k))
  (at level 100, m at next level, right associativity).
Notation "m ;;; k" := (bind m (fun _ => k))
  (at level 100, right associativity).

(** Lift a pure computation that may raise. *)
Definition lift {S A} (o : outcome A) : prog S A := fun w => (w, o).

Definition when {S} (b : bool) (m : prog S unit) : prog S unit :=
  if b then m else ret tt.

(** The state after a body, whatever it returned. *)
Definition exec {S A} (m : prog S A) (w : S) : S := fst (m w).

Section Pipeline.

Context {M R C : Type} {vosk : Vosk M R} {consumer : Consumer C}.

Local Abbreviation STT := (RealtimeSTT M R C).
Local Abbreviation W := (World M R C).

Definition set_running (b : bool) (s : STT) : STT :=
  {| sample_rate := sample_rate s; block_size := block_size s; running := b;
     audio_queue := audio_queue s; result_queue := result_queue s;
     model := model s; recognizer := recognizer s; callback := callback s;
     stream := stream s |}.

Definition set_audio_queue (q : list bytes) (s : STT) : STT :=
  {| sample_rate := sample_rate s; block_size := block_size s;
     running := running s;
     audio_queue := q; result_queue := result_queue s;
     model := model s; recognizer := recognizer s; callback := callback s;
     stream := stream s |}.

Definition set_result_queue (q : list str) (s : STT) : STT :=
  {| sample_rate := sample_rate s; block_size := block_size s;
     running := running s;
     audio_queue := audio_queue s; result_queue := q;
     model := model s; recognizer := recognizer s; callback := callback s;
     stream := stream s |}.

Definition set_recognizer (r : R) (s : STT) : STT :=
  {| sample_rate := sample_rate s; block_size := block_size s;
     running := running s;
     audio_queue := audio_queue s; result_queue := result_queue s;
     model := model s; recognizer := r; callback := callback s;
     stream := stream s |}.

Definition set_callback (c : callback_t C) (s : STT) : STT :=
  {| sample_rate := sample_rate s; block_size := block_size s;
     running := running s;
     audio_queue := audio_queue s; result_queue := result_queue s;
     model := model s; recognizer := recognizer s; callback := c;
     stream := stream s |}.

Definition set_stream (st : RawInputStream) (s : STT) : STT :=
  {| sample_rate := sample_rate s; block_size := block_size s;
     running := running s;
     audio_queue := audio_queue s; result_queue := result_queue s;
     model := model s; recognizer := recognizer s; callback := callback s;
     stream := Some st |}.

Local Abbreviation Prog := (prog W).

Definition read {A} (f : STT -> A) : Prog A := fun w => (w, Ok (f (self w))).

Definition modify (f : STT -> STT) : Prog unit :=
  fun w => ({| self := f (self w); threads := threads w; trace := trace w |},
            Ok tt).

Definition emit (e : event) : Prog unit :=
  fun w => ({| self := self w; threads := threads w;
               trace := trace w ++ [e] |}, Ok tt).

Definition spawn (t : thread) : Prog unit :=
  fun w => ({| self := self w; threads := threads w ++ [t];
               trace := trace w |}, Ok tt).

(* ===================================================================== *)
(** ** Methods of [RealtimeSTT]                                           *)
(* ===================================================================== *)

(** [self.audio_queue.put(b)] and [self.result_queue.put(t)] *)
Definition audio_queue_put (b : bytes) : Prog unit :=
  emit (AudioPut b) ;;;
  modify (fun s => set_audio_queue (audio_queue s ++ [b]) s).

Definition result_queue_put (t : str) : Prog unit :=
  emit (ResultPut t) ;;;
  modify (fun s => set_result_queue (result_queue s ++ [t]) s).

(** [self.audio_queue.get(timeout=2)], taken when the wait is over: the
    oldest block, or [queue.Empty] when none came in time. *)
Definition audio_queue_get : Prog bytes :=
  q <- read audio_queue ;;
  match q with
  | [] => raise Empty
  | b :: rest => modify (set_audio_queue rest) ;;; ret b
  end.

Definition result_queue_get : Prog str :=
  q <- read result_queue ;;
  match q with
  | [] => raise Empty
  | t :: rest => modify (set_result_queue rest) ;;; ret t
  end.

(** [_default_callback] *)
Definition _default_callback (text : str) : Prog unit :=
  when (str_bool (strip text)) (emit (Print (u "Transcribed: " ++ text))).

(** [self.callback(text)] *)
Definition call_callback (text : str) : Prog unit :=
  emit (CallbackCall text) ;;;
  cb <- read callback ;;
  match cb with
  | default_callback => _default_callback text
  | user_callback c =>
      fun w => let (c', o) := call c text in
               (exec (modify (set_callback (user_callback c'))) w, o)
  end.

(** [bytes(indata)]: a new immutable object with the content the device
    buffer has now. *)
Definition py_bytes (indata : bytes) : bytes := indata.

(** [_audio_callback] *)
Definition _audio_callback (indata : bytes) (frames time : Z)
    (status : CallbackFlags) : Prog unit :=
  when (flags_bool status)
       (emit (Log WARNING (MsgStatus (u "Audio stream status: ") status))) ;;;
  r <- read running ;;
  when r (audio_queue_put (py_bytes indata)).

(** [self.recognizer.AcceptWaveform(audio_data)] *)
Definition recognizer_AcceptWaveform (audio_data : bytes) : Prog bool :=
  emit (AcceptWaveformCall audio_data) ;;;
  fun w => let (r', o) := AcceptWaveform (recognizer (self w)) audio_data in
           (exec (modify (set_recognizer r')) w, o).

(** [json.loads(self.recognizer.Result())] *)
Definition recognizer_Result : Prog json :=
  fun w => let (r', o) := Result (recognizer (self w)) in
           (exec (modify (set_recognizer r')) w, o).

(** The [try] body of [_process_audio] once [get] has returned
    [audio_data]. *)
Definition recognize (audio_data : bytes) : Prog unit :=
  boundary <- recognizer_AcceptWaveform audio_data ;;
  if boundary : bool then
    result <- recognizer_Result ;;
    text <- lift (py_get result (u "text") (JStr [])) ;;
    stripped <- lift (py_strip text) ;;
    if str_bool stripped then
      item <- lift (py_getitem result (u "text")) ;;
      match item with
      | JStr t => result_queue_put t
      | _ => ret tt
      end
    else ret tt
  else ret tt.

(** The [except] clauses of [_process_audio]: [queue.Empty] goes round
    the loop silently, any other [Exception] is logged, and an exception
    that is not an [Exception] leaves the function. *)
Definition except_process_audio (e : exn) (w : W) : W * pc bytes :=
  match e with
  | Empty => (w, AtWhile)
  | _ =>
      if is_Exception e then
        (exec (emit (Log ERROR
                 (Msg (u "Error processing audio: " ++ exn_str e)))) w,
         AtWhile)
      else (w, Died e)
  end.

(** One step of the loop of [_process_audio]. *)
Definition process_audio_step (p : pc bytes) (w : W) : W * pc bytes :=
  match p with
  | AtWhile => if running (self w) then (w, InGet) else (w, Returned)
  | InGet =>
      match audio_queue_get w with
      | (w', Ok audio_data) => (w', Got audio_data)
      | (w', Raise e) => except_process_audio e w'
      end
  | Got audio_data =>
      match recognize audio_data w with
      | (w', Ok _) => (w', AtWhile)
      | (w', Raise e) => except_process_audio e w'
      end
  | Returned => (w, Returned)
  | Died e => (w, Died e)
  end.

(** The [except] clauses of [_output_processor]. *)
Definition except_output_processor (e : exn) (w : W) : W * pc str :=
  match e with
  | Empty => (w, AtWhile)
  | _ =>
      if is_Exception e then
        (exec (emit (Log ERROR
                 (Msg (u "Error in output processor: " ++ exn_str e)))) w,
         AtWhile)
      else (w, Died e)
  end.

(** One step of the loop of [_output_processor]. *)
Definition output_processor_step (p : pc str) (w : W) : W * pc str :=
  match p with
  | AtWhile => if running (self w) then (w, InGet) else (w, Returned)
  | InGet =>
      match result_queue_get w with
      | (w', Ok text) => (w', Got text)
      | (w', Raise e) => except_output_processor e w'
      end
  | Got text =>
      match call_callback text w with
      | (w', Ok _) => (w', AtWhile)
      | (w', Raise e) => except_output_processor e w'
      end
  | Returned => (w, Returned)
  | Died e => (w, Died e)
  end.

Definition thread_step (t : thread) (w : W) : W * thread :=
  match t with
  | process_audio_thread p =>
      let (w', p') := process_audio_step p w in (w', process_audio_thread p')
  | output_processor_thread p =>
      let (w', p') := output_processor_step p w in
      (w', output_processor_thread p')
  end.

Definition is_DevOpen (e : event) : bool :=
  match e with DevOpen _ => true | _ => false end.

(** The number the next stream gets: how many were opened before. *)
Definition next_handle (w : W) : nat := length (filter is_DevOpen (trace w)).

(** [start] *)
Definition start : Prog unit :=
  modify (set_running true) ;;;
  rate <- read sample_rate ;;
  size <- read block_size ;;
  h <- (fun w => (w, Ok (next_handle w))) ;;
  let s := {| handle := h; samplerate := rate; blocksize := size;
              dtype := int16; channels := 1;
              stream_callback := audio_callback_handler |} in
  emit (DevOpen s) ;;;
  modify (set_stream s) ;;;
  emit (DevStart h) ;;;
  emit (ThreadStart process_audio) ;;;
  spawn (process_audio_thread AtWhile) ;;;
  emit (ThreadStart output_processor) ;;;
  spawn (output_processor_thread AtWhile) ;;;
  emit (Log INFO (Msg (u "Real-time STT system started"))).

(** [stop] *)
Definition stop : Prog unit :=
  modify (set_running false) ;;;
  st <- read stream ;;
  match st with
  | Some s => emit (DevStop (handle s)) ;;; emit (DevClose (handle s))
  | None => ret tt
  end ;;;
  emit (Log INFO (Msg (u "Real-time STT system stopped"))).

(** One action of the environment: a call of [start] or [stop], the device
    handing a block to the function registered with the stream, or thread
    [i] taking its next step. *)
Definition step (a : action) (w : W) : W :=
  match a with
  | CallStart => exec start w
  | CallStop => exec stop w
  | Deliver indata frames time status =>
      match stream (self w) with
      | Some s =>
          match stream_callback s with
          | audio_callback_handler =>
              exec (_audio_callback indata frames time status) w
          end
      | None => w
      end
  | Run i =>
      match threads w !! i with
      | Some t =>
          let (w', t') := thread_step t w in
          {| self := self w'; threads := <[i := t']> (threads w');
             trace := trace w' |}
      | None => w
      end
  end.

(** A schedule: the actions in the order they happen. *)
Definition run (sched : list action) (w : W) : W :=
  fold_left (fun w a => step a w) sched w.

(** [__init__], with what was printed before it; [callback] is the
    argument, [None] when it was not given. *)
Definition __init__ (model_path : str) (rate : Z) (cb : option C)
    (out : list event) : list event * outcome W :=
  let failed (e : exn) : list event * outcome W :=
    if is_Exception e then
      (out ++ [Print (u "Error loading model: " ++ exn_str e);
               Print (u "Please ensure you have downloaded the Vosk model.")],
       Raise (SystemExit 1))
    else (out, Raise e) in
  match Model model_path with
  | Raise e => failed e
  | Ok m =>
      match KaldiRecognizer m rate with
      | Raise e => failed e
      | Ok r =>
          match SetWords r true with
          | (_, Raise e) => failed e
          | (r', Ok _) =>
              (out,
               Ok {| self := {| sample_rate := rate; block_size := 8000;
                                running := false;
                                audio_queue := []; result_queue := [];
                                model := m; recognizer := r';
                                callback := match cb with
                                            | Some c => user_callback c
                                            | None => default_callback
                                            end;
                                stream := None |};
                     threads := []; trace := out |})
          end
      end
  end.

(** [try: ... finally: ...]: an exception raised by the [finally] block
    replaces the one that was on its way out. *)
Definition try_finally {A} (body : outcome A) (final : outcome unit)
  : outcome A :=
  match final with
  | Raise e => Raise e
  | Ok _ => body
  end.

(** The exit status of the interpreter for what left the main module. *)
Definition exit_status {A} (o : outcome A) : Z :=
  match o with
  | Ok _ => 0
  | Raise (SystemExit code) => code
  | Raise _ => 1
  end.

(** [main], for the parsed arguments [--model] and [--sample-rate].
    [background] is what the device and the worker threads do while [main]
    waits in [sys.stdin.readline()], up to the interrupt that breaks the
    loop.  The result is everything printed, logged or called, and the exit
    status of the process. *)
Definition main (model_arg : str) (sample_rate_arg : Z)
    (background : list action) : list event * Z :=
  let out :=
    [Print (u "Starting Real-time Speech-to-Text System...");
     Print (u "Make sure you have downloaded the Vosk model from https://alphacephei.com/vosk/models");
     Print (u "Press Ctrl+C to exit")] in
  match __init__ model_arg sample_rate_arg None out with
  | (out', Raise e) =>
      (* 'stt' is not in locals(): [finally] goes to sys.exit(0) *)
      let out'' := match e with
                   | KeyboardInterrupt => out' ++ [Print (10%N :: u "Stopping...")]
                   | _ => out'
                   end in
      let pending : outcome unit :=
        match e with KeyboardInterrupt => Ok tt | _ => Raise e end in
      (out'', exit_status (try_finally pending (Raise (SystemExit 0))))
  | (_, Ok stt) =>
      let w := exec start stt in
      let w := run background w in
      (* KeyboardInterrupt in readline: break, then [finally] *)
      let w := exec stop w in
      (trace w, exit_status (try_finally (Ok tt) (Raise (SystemExit 0))))
  end.

End Pipeline.

(* ===================================================================== *)
(** ** Test doubles                                                       *)
(* ===================================================================== *)

(** A recognizer that plays a script: each [AcceptWaveform] takes the next
    entry, which says what the call returns or raises and what [Result]
    gives afterwards; past the end of the script no boundary is reported. *)
Record scripted := {
  script : list (outcome bool * outcome json);
  latest : outcome json;
}.

Definition scripted_vosk (missing : str)
    (s : list (outcome bool * outcome json)) : Vosk unit scripted := {|
  Model path :=
    if str_eqb path missing
    then Raise (Exception (u "Failed to create a model"))
    else Ok tt;
  KaldiRecognizer _ _ := Ok {| script := s; latest := Ok (JDict []) |};
  SetWords r _ := (r, Ok tt);
  AcceptWaveform r _ :=
    match script r with
    | [] => (r, Ok false)
    | (o, j) :: rest => ({| script := rest; latest := j |}, o)
    end;
  Result r := (r, latest r);
|}.

(** A consumer that plays a script of returns and raises, and returns
    normally past its end. *)
Definition scripted_consumer : Consumer (list (outcome unit)) := {|
  call c _ :=
    match c with
    | [] => ([], Ok tt)
    | o :: rest => (rest, o)
    end;
|}.

(** An object as the constructor leaves it, for a given recognizer and
    callback. *)
Definition fresh {M R C} (m : M) (r : R) (cb : callback_t C) (rate : Z)
  : World M R C :=
  {| self := {| sample_rate := rate; block_size := 8000; running := false;
                audio_queue := []; result_queue := [];
                model := m; recognizer := r; callback := cb;
                stream := None |};
     threads := []; trace := [] |}.

(** The answer of the recognizer at an utterance boundary with text [t]. *)
Definition says (t : string) : outcome bool * outcome json :=
  (Ok true, Ok (JDict [(u "text", JStr (u t))])).

Definition silent : outcome bool * outcome json := (Ok false, Ok (JDict [])).

Definition block (n : nat) : bytes := repeat Byte.x00 n.

(** *** Scenarios *)

(** The scenario of three blocks: nothing at the first, "hello world" at
    the second, a blank text at the third. *)
Definition three_blocks : Vosk unit scripted :=
  scripted_vosk (u "missing") [silent; says "hello world"; says "  "].

Definition after_two_blocks : list action :=
  [CallStart; Deliver (block 1) 1 0 0%N; Deliver (block 2) 2 0 0%N;
   Run 0%nat; Run 0%nat; Run 0%nat; Run 0%nat; Run 0%nat; Run 0%nat].

Definition three_blocks_fresh : World unit scripted (list (outcome unit)) :=
  fresh tt {| script := [silent; says "hello world"; says "  "];
              latest := Ok (JDict []) |} default_callback 16000.

(** Five blocks come in; three are recognized, with a [stop] in between. *)
Definition five_blocks : list action :=
  [Deliver (block 1) 1 0 0%N; Deliver (block 2) 2 0 0%N;
   Run 0%nat; Run 0%nat; Run 0%nat;
   Deliver (block 3) 3 0 2%N; Deliver (block 4) 4 0 0%N;
   Run 0%nat; Run 0%nat; Run 0%nat; Run 1%nat; Run 1%nat;
   Deliver (block 5) 5 0 0%N; Run 0%nat; Run 0%nat; CallStop; Run 0%nat;
   Run 1%nat; Run 1%nat].

(** A recognizer that fails on the third block it is given, and reports
    a boundary with the text "ok" at every other one. *)
Definition faulty_vosk : Vosk unit nat := {|
  Model _ := Ok tt;
  KaldiRecognizer _ _ := Ok 0%nat;
  SetWords r _ := (r, Ok tt);
  AcceptWaveform n _ :=
    (S n, if (n =? 2)%nat then Raise (Exception (u "decoder failure"))
          else Ok true);
  Result n := (n, Ok (JDict [(u "text", JStr (u "ok"))]));
|}.

(** Five blocks are queued and the worker holds the third. *)
Definition at_block_3 : World unit nat (list (outcome unit)) :=
  run (vosk := faulty_vosk) (consumer := scripted_consumer)
      [CallStart;
       Deliver (block 1) 1 0 0%N; Deliver (block 2) 2 0 0%N;
       Deliver (block 3) 3 0 0%N; Deliver (block 4) 4 0 0%N;
       Deliver (block 5) 5 0 0%N;
       Run 0%nat; Run 0%nat; Run 0%nat; Run 0%nat; Run 0%nat; Run 0%nat;
       Run 0%nat; Run 0%nat]
      (fresh tt 0%nat default_callback 16000).

(** A consumer that fails on the first text it is given and accepts every
    later one. *)
Definition flaky_consumer : Consumer nat := {|
  call n _ :=
    (S n, if (n =? 0)%nat then Raise (Exception (u "consumer failed"))
          else Ok tt);
|}.

Definition two_results : Vosk unit scripted :=
  scripted_vosk (u "missing") [says "one"; says "two"].

(** Two texts were recognized and the dispatch worker holds the first. *)
Definition at_result_1 : World unit scripted nat :=
  run (vosk := two_results) (consumer := flaky_consumer)
      [CallStart;
       Deliver (block 1) 1 0 0%N; Deliver (block 2) 2 0 0%N;
       Run 0%nat; Run 0%nat; Run 0%nat; Run 0%nat; Run 0%nat; Run 0%nat;
       Run 1%nat; Run 1%nat]
      (fresh tt {| script := [says "one"; says "two"];
                   latest := Ok (JDict []) |}
             (user_callback 0%nat) 16000).

(** A recognizer whose only result has white space on both sides. *)
Definition padded : Vosk unit scripted :=
  scripted_vosk (u "missing") [says "  hello world "].

(** The recognition worker holds the block; the dispatch worker waits. *)
Definition at_padded_block : World unit scripted (list (outcome unit)) :=
  run (vosk := padded) (consumer := scripted_consumer)
      [CallStart; Deliver (block 1) 1 0 0%N; Run 0%nat; Run 0%nat]
      (fresh tt {| script := [says "  hello world "];
                   latest := Ok (JDict []) |} default_callback 16000).



(* ===================================================================== *)
(** ** Reading a trace                                                    *)
(* ===================================================================== *)

(** The blocks put on the audio queue, the blocks fed to the recognizer,
    the texts put on the result queue and the texts handed to the
    callback, each in the order of the trace. *)
Definition enqueued (tr : list event) : list bytes :=
  omap (fun e => match e with AudioPut b => Some b | _ => None end) tr.

Definition accepted (tr : list event) : list bytes :=
  omap (fun e => match e with AcceptWaveformCall b => Some b | _ => None end) tr.

Definition produced (tr : list event) : list str :=
  omap (fun e => match e with ResultPut t => Some t | _ => None end) tr.

Definition dispatched (tr : list event) : list str :=
  omap (fun e => match e with CallbackCall t => Some t | _ => None end) tr.

(** How often [close] was called on stream [h]. *)
Definition is_DevClose (h : nat) (e : event) : bool :=
  match e with DevClose h' => bool_decide (h' = h) | _ => false end.

Definition closes (h : nat) (tr : list event) : nat :=
  length (filter (is_DevClose h) tr).

Definition is_device_call (e : event) : bool :=
  match e with
  | DevOpen _ | DevStart _ | DevStop _ | DevClose _ => true
  | _ => false
  end.

(** The calls made on the sound device. *)
Definition device_calls (tr : list event) : list event :=
  filter is_device_call tr.

(** Events that are output only: printed lines and log records. *)
Definition quiet (e : event) : Prop :=
  match e with Print _ | Log _ _ => True | _ => False end.

(** Non-empty after trimming white space. *)
Definition nonblank (t : str) : Prop := str_bool (strip t) = true.

(** The item a worker holds between [get] and its use. *)
Definition held {A} (p : pc A) : list A :=
  match p with Got x => [x] | _ => [] end.


(** An outcome that the handlers of a worker loop catch. *)
Definition caught {A} (o : outcome A) : Prop :=
  match o with
  | Ok _ => True
  | Raise e => is_Exception e = true
  end.

(** The texts a thread may still hand to the callback are not blank. *)
Definition thread_clean (th : thread) : Prop :=
  match th with
  | output_processor_thread (Got t) => nonblank t
  | _ => True
  end.

Definition clean {M R C} (w : World M R C) : Prop :=
  Forall nonblank (result_queue (self w))
  /\ Forall nonblank (produced (trace w))
  /\ Forall nonblank (dispatched (trace w))
  /\ Forall thread_clean (threads w).

(** The blocks and the texts that workers took off a queue and have not
    used yet. *)
Definition held_audio (ths : list thread) : list bytes :=
  ths ≫= (fun th => match th with
                    | process_audio_thread p => held p
                    | output_processor_thread _ => []
                    end).

Definition held_text (ths : list thread) : list str :=
  ths ≫= (fun th => match th with
                    | output_processor_thread p => held p
                    | process_audio_thread _ => []
                    end).

(** The pipeline after one [start]: one worker of each kind, and on each
    side what was taken out, what is held and what waits make up what was
    put in, in that order. *)
Definition fifo {M R C} (w : World M R C) : Prop :=
  exists p1 p2,
    threads w = [process_audio_thread p1; output_processor_thread p2]
    /\ accepted (trace w) ++ held p1 ++ audio_queue (self w)
       = enqueued (trace w)
    /\ dispatched (trace w) ++ held p2 ++ result_queue (self w)
       = produced (trace w).

(** The calls [stop] makes on the stream it finds. *)
Definition release (st : option RawInputStream) : list event :=
  match st with
  | Some s => [DevStop (handle s); DevClose (handle s)]
  | None => []
  end.

(** The lines printed. *)
Definition printed (tr : list event) : list str :=
  omap (fun e => match e with Print l => Some l | _ => None end) tr.

(** A worker that has left its loop for good. *)
Definition finished (th : thread) : bool :=
  match th with
  | process_audio_thread (Returned | Died _) => true
  | output_processor_thread (Returned | Died _) => true
  | _ => false
  end.

(** How many steps of its own a worker needs at most to leave its loop
    once the flag is false. *)
Definition steps_to_exit (th : thread) : nat :=
  match th with
  | process_audio_thread p | output_processor_thread p =>
      match p with
      | InGet => 3
      | Got _ => 2
      | AtWhile => 1
      | Returned | Died _ => 0
      end
  end%nat.

Definition is_Run (i : nat) (a : action) : bool :=
  match a with Run j => (i =? j)%nat | _ => false end.

(** How many steps thread [i] takes in a schedule. *)
Definition runs_of (i : nat) (sched : list action) : nat :=
  length (filter (is_Run i) sched).

(** What goes on while [main] waits: the device delivers and the workers
    step; nobody calls [start] or [stop]. *)
Definition in_background (a : action) : bool :=
  match a with
  | Deliver _ _ _ _ | Run _ => true
  | CallStart | CallStop => false
  end.

(** The action is a step in which a recognition worker runs the body of
    its loop on a block. *)
Definition feeds_recognizer {M R C} (a : action) (w : World M R C) : bool :=
  match a with
  | Run i =>
      match threads w !! i with
      | Some (process_audio_thread (Got _)) => true
      | _ => false
      end
  | _ => false
  end.

(** The action is a step in which a dispatch worker calls the callback. *)
Definition invokes_callback {M R C} (a : action) (w : World M R C) : bool :=
  match a with
  | Run i =>
      match threads w !! i with
      | Some (output_processor_thread (Got _)) => true
      | _ => false
      end
  | _ => false
  end.

(** A delivery of the device: the block, the frame count, the time and
    the status. *)
Definition deliver (d : bytes * Z * Z * CallbackFlags) : action :=
  match d with (indata, frames, time, status) =>
    Deliver indata frames time status
  end.

(** The stream that [stop] would release has a number above [h], and
    stream [h] was closed as often as in the trace [tr0]. *)
Definition out_of_reach (h : nat) (tr0 : list event) {M R C} (w : World M R C) : Prop :=
  (h < next_handle w)%nat
  /\ (exists s, stream (self w) = Some s /\ (h < handle s)%nat)
  /\ closes h (trace w) = closes h tr0.

(** The scripted recognizer, whatever its script: the script is in the
    state of the recognizer. *)
Definition plain : Vosk unit scripted := scripted_vosk (u "missing") [].

(** The recognition worker holds the first block, and the recognizer will
    answer it with [entry]. *)
Definition at_first_block (entry : outcome bool * outcome json)
  : World unit scripted (list (outcome unit)) :=
  run (vosk := plain) (consumer := scripted_consumer)
      [CallStart; Deliver (block 1) 1 0 0%N; Run 0%nat; Run 0%nat]
      (fresh tt {| script := [entry]; latest := Ok (JDict []) |}
             default_callback 16000).

(** The dispatch worker holds the text "one", and the callback will play
    the script [c]. *)
Definition at_first_result (c : list (outcome unit))
  : World unit scripted (list (outcome unit)) :=
  run (vosk := plain) (consumer := scripted_consumer)
      [CallStart; Deliver (block 1) 1 0 0%N;
       Run 0%nat; Run 0%nat; Run 0%nat; Run 1%nat; Run 1%nat]
      (fresh tt {| script := [says "one"]; latest := Ok (JDict []) |}
             (user_callback c) 16000).

(** A tab, a space, a no-break space and an em space. *)
Definition unicode_blank : str := [9; 32; 160; 8195]%N.

Definition blank_boundary : World unit scripted (list (outcome unit)) :=
  fresh tt {| script := [(Ok true,
                          Ok (JDict [(u "text", JStr unicode_blank)]))];
              latest := Ok (JDict []) |} default_callback 16000.

(** [stop] was called while the recognition worker held a block and the
    dispatch worker waited in [get]. *)
Definition stopping : World unit scripted (list (outcome unit)) :=
  run (vosk := plain) (consumer := scripted_consumer)
      [Run 1%nat; Run 1%nat; CallStop] (at_first_block (says "one")).

Definition while_stopping : list action :=
  [Run 0%nat; Deliver (block 2) 2 0 0%N; Run 1%nat; Run 0%nat; CallStop;
   Run 0%nat].

Definition quiet_background : list action :=
  [Deliver (block 1) 1 0 0%N; Deliver (block 2) 2 0 0%N;
   Run 0%nat; Run 0%nat; Run 0%nat; Run 0%nat; Run 0%nat; Run 0%nat;
   Run 1%nat; Run 1%nat; Run 1%nat].

(** The faulty recognizer stopped with one block left on the queue. *)
Definition faulty_stopped : World unit nat (list (outcome unit)) :=
  run (vosk := faulty_vosk) (consumer := scripted_consumer)
      [CallStart; Deliver (block 1) 1 0 0%N; Deliver (block 2) 2 0 0%N;
       Run 0%nat; Run 0%nat; Run 0%nat; CallStop; Run 0%nat; Run 1%nat]
      (fresh tt 0%nat default_callback 16000).

Definition five_deliveries : list (bytes * Z * Z * CallbackFlags) :=
  [(block 1, 1, 0, 0%N); (block 2, 2, 0, 0%N); (block 3, 3, 0, 2%N);
   (block 4, 4, 0, 0%N); (block 5, 5, 0, 0%N)].

Definition faulty_flaky_fresh : World unit nat nat :=
  fresh tt 0%nat (user_callback 0%nat) 16000.

(** Two texts were recognized, the dispatch worker holds the first, and
    the callback will call [sys.exit(0)]. *)
Definition at_result_1_exiting : World unit scripted (list (outcome unit)) :=
  run (vosk := plain) (consumer := scripted_consumer)
      [CallStart;
       Deliver (block 1) 1 0 0%N; Deliver (block 2) 2 0 0%N;
       Run 0%nat; Run 0%nat; Run 0%nat; Run 0%nat; Run 0%nat; Run 0%nat;
       Run 1%nat; Run 1%nat]
      (fresh tt {| script := [says "one"; says "two"];
                   latest := Ok (JDict []) |}
             (user_callback [Raise (SystemExit 0)]) 16000).

Section Properties.

Context {M R C : Type} {vosk : Vosk M R} {consumer : Consumer C}.

Local Abbreviation STT := (RealtimeSTT M R C).
Local Abbreviation W := (World M R C).

Implicit Types (w : W) (b : bytes) (t : str) (tr : list event).

Ltac prog :=
  cbv [bind ret raise lift when exec read modify emit spawn
       audio_queue_put result_queue_put audio_queue_get result_queue_get
       py_bytes]; simpl.

Lemma enqueued_app tr1 tr2 : enqueued (tr1 ++ tr2) = enqueued tr1 ++ enqueued tr2.
Proof. apply omap_app. Qed.

Lemma accepted_app tr1 tr2 : accepted (tr1 ++ tr2) = accepted tr1 ++ accepted tr2.
Proof. apply omap_app. Qed.

Lemma produced_app tr1 tr2 : produced (tr1 ++ tr2) = produced tr1 ++ produced tr2.
Proof. apply omap_app. Qed.

Lemma dispatched_app tr1 tr2 :
  dispatched (tr1 ++ tr2) = dispatched tr1 ++ dispatched tr2.
Proof. apply omap_app. Qed.

(** What [_audio_callback] does to the world, field by field. *)
Lemma audio_callback_frame
    w (indata : bytes) (frames time : Z) (status : CallbackFlags) :
  let w' := exec (_audio_callback indata frames time status) w in
  snd (_audio_callback indata frames time status w) = Ok tt
  /\ audio_queue (self w') =
       audio_queue (self w) ++ (if running (self w) then [indata] else [])
  /\ trace w' =
       trace w
       ++ (if flags_bool status
           then [Log WARNING (MsgStatus (u "Audio stream status: ") status)]
           else [])
       ++ (if running (self w) then [AudioPut indata] else [])
  /\ device_calls (trace w') = device_calls (trace w)
  /\ running (self w') = running (self w)
  /\ stream (self w') = stream (self w)
  /\ result_queue (self w') = result_queue (self w)
  /\ threads w' = threads w.
Proof.
  unfold _audio_callback, device_calls. prog.
  destruct (flags_bool status), (running (self w)) eqn:Hr; simpl;
    rewrite ?Hr; simpl; rewrite ?app_nil_r, ?filter_app; simpl;
    rewrite ?app_nil_r; rewrite <- ?app_assoc; auto 10.
Qed.

(** C7. [_audio_callback] appends a copy of the delivered block to the
    audio queue exactly when [running] is true and drops it otherwise; a
    status that is set adds one warning to the log and changes nothing
    else: the block is enqueued all the same and no call is made on the
    device. *)
Theorem audio_callback_enqueues_iff_running
    w (indata : bytes) (frames time : Z) (status : CallbackFlags) :
  let w' := exec (_audio_callback indata frames time status) w in
  snd (_audio_callback indata frames time status w) = Ok tt
  /\ audio_queue (self w') =
       audio_queue (self w) ++ (if running (self w) then [indata] else [])
  /\ trace w' =
       trace w
       ++ (if flags_bool status
           then [Log WARNING (MsgStatus (u "Audio stream status: ") status)]
           else [])
       ++ (if running (self w) then [AudioPut indata] else [])
  /\ device_calls (trace w') = device_calls (trace w)
  /\ running (self w') = running (self w)
  /\ stream (self w') = stream (self w)
  /\ result_queue (self w') = result_queue (self w)
  /\ threads w' = threads w.
Proof. apply audio_callback_frame. Qed.

(** What one run of the [try] body of [_process_audio] does to the world:
    one call of [AcceptWaveform], at most one [put] on the result queue,
    of a text that is not blank, and nothing else. *)
Lemma recognize_frame b w :
  exists puts,
    trace (exec (recognize b) w)
      = trace w ++ AcceptWaveformCall b :: map ResultPut puts
    /\ result_queue (self (exec (recognize b) w)) = result_queue (self w) ++ puts
    /\ Forall nonblank puts
    /\ audio_queue (self (exec (recognize b) w)) = audio_queue (self w)
    /\ running (self (exec (recognize b) w)) = running (self w)
    /\ stream (self (exec (recognize b) w)) = stream (self w)
    /\ callback (self (exec (recognize b) w)) = callback (self w)
    /\ threads (exec (recognize b) w) = threads w.
Proof.
  unfold recognize, recognizer_AcceptWaveform, recognizer_Result. prog.
  destruct (AcceptWaveform (recognizer (self w)) b) as [r1 [[|]|e]]; simpl;
    try (exists []; simpl; rewrite ?app_nil_r; auto 10; fail).
  destruct (Result r1) as [r2 [result|e]]; simpl;
    try (exists []; simpl; rewrite ?app_nil_r; auto 10; fail).
  unfold py_get, py_strip, py_getitem.
  destruct result as [| | | | |l|items]; simpl;
    try (exists []; simpl; rewrite ?app_nil_r; auto 10; fail).
  destruct (dict_lookup (u "text") items) as [v|]; simpl;
    try (exists []; simpl; rewrite ?app_nil_r; auto 10; fail).
  destruct v as [| | | |t| |]; simpl;
    try (exists []; simpl; rewrite ?app_nil_r; auto 10; fail).
  destruct (str_bool (strip t)) eqn:Ht; simpl;
    try (exists []; simpl; rewrite ?app_nil_r; auto 10; fail).
  exists [t]; simpl. rewrite <- app_assoc. simpl. auto 10.
Qed.


(** The same body at an utterance boundary whose document has the text
    [t] (the default [''] when the key is missing): it returns normally,
    and it puts [t] itself on the result queue when [t] is not blank and
    nothing when it is. *)
Lemma recognize_boundary b w r1 r2 result t :
  AcceptWaveform (recognizer (self w)) b = (r1, Ok true) ->
  Result r1 = (r2, Ok result) ->
  py_get result (u "text") (JStr []) = Ok (JStr t) ->
  snd (recognize b w) = Ok tt
  /\ result_queue (self (exec (recognize b) w))
     = result_queue (self w) ++ (if str_bool (strip t) then [t] else [])
  /\ trace (exec (recognize b) w)
     = trace w ++ AcceptWaveformCall b
               :: (if str_bool (strip t) then [ResultPut t] else []).
Proof.
  intros Ha Hr Hg.
  unfold recognize, recognizer_AcceptWaveform, recognizer_Result. prog.
  rewrite Ha; simpl. rewrite Hr; simpl. rewrite Hg; simpl.
  destruct (str_bool (strip t)) eqn:Ht; simpl; rewrite ?app_nil_r; auto.
  assert (py_getitem result (u "text") = Ok (JStr t)) as ->.
  { unfold py_get, py_getitem in *. destruct result; try discriminate.
    destruct (dict_lookup (u "text") items); [congruence|].
    injection Hg as <-. discriminate. }
  simpl. rewrite <- app_assoc. auto.
Qed.

Lemma quiet_projections tr l :
  Forall quiet l ->
  enqueued (tr ++ l) = enqueued tr /\ accepted (tr ++ l) = accepted tr
  /\ produced (tr ++ l) = produced tr /\ dispatched (tr ++ l) = dispatched tr
  /\ device_calls (tr ++ l) = device_calls tr.
Proof.
  intros Hl. unfold device_calls.
  rewrite enqueued_app, accepted_app, produced_app, dispatched_app, filter_app.
  induction Hl as [|e l He _ IH]; simpl.
  - rewrite !app_nil_r. auto.
  - destruct e; simpl in He; try contradiction; exact IH.
Qed.

(** [self.callback(text)]: the call is made with [text]; the default
    callback may print; the queues, the flag, the stream and the threads
    stay as they are. *)
Lemma call_callback_frame t w :
  exists out,
    Forall quiet out
    /\ trace (exec (call_callback t) w) = trace w ++ CallbackCall t :: out
    /\ result_queue (self (exec (call_callback t) w)) = result_queue (self w)
    /\ audio_queue (self (exec (call_callback t) w)) = audio_queue (self w)
    /\ running (self (exec (call_callback t) w)) = running (self w)
    /\ stream (self (exec (call_callback t) w)) = stream (self w)
    /\ recognizer (self (exec (call_callback t) w)) = recognizer (self w)
    /\ threads (exec (call_callback t) w) = threads w.
Proof.
  unfold call_callback, _default_callback. prog.
  destruct (callback (self w)) as [|c]; simpl.
  - destruct (str_bool (strip t)); simpl.
    + exists [Print (u "Transcribed: " ++ t)].
      split; [repeat constructor|].
      rewrite <- app_assoc; simpl. auto 10.
    + exists []; split; [constructor|]. auto 10.
  - destruct (call c t) as [c' o]; simpl.
    exists []; split; [constructor|]. auto 10.
Qed.

(** The handlers add at most a log record and never touch the object. *)
Lemma except_process_audio_frame e w :
  exists out,
    Forall quiet out
    /\ trace (fst (except_process_audio e w)) = trace w ++ out
    /\ self (fst (except_process_audio e w)) = self w
    /\ threads (fst (except_process_audio e w)) = threads w
    /\ held (snd (except_process_audio e w)) = [].
Proof.
  unfold except_process_audio. prog.
  destruct e; simpl;
    try (exists []; rewrite app_nil_r; repeat split; auto; constructor);
    (eexists [_]; repeat split; auto; repeat constructor).
Qed.

Lemma except_output_processor_frame e w :
  exists out,
    Forall quiet out
    /\ trace (fst (except_output_processor e w)) = trace w ++ out
    /\ self (fst (except_output_processor e w)) = self w
    /\ threads (fst (except_output_processor e w)) = threads w
    /\ held (snd (except_output_processor e w)) = [].
Proof.
  unfold except_output_processor. prog.
  destruct e; simpl;
    try (exists []; rewrite app_nil_r; repeat split; auto; constructor);
    (eexists [_]; repeat split; auto; repeat constructor).
Qed.



Lemma puts_projections tr (puts : list str) :
  enqueued (tr ++ map ResultPut puts) = enqueued tr
  /\ accepted (tr ++ map ResultPut puts) = accepted tr
  /\ dispatched (tr ++ map ResultPut puts) = dispatched tr
  /\ device_calls (tr ++ map ResultPut puts) = device_calls tr
  /\ produced (tr ++ map ResultPut puts) = produced tr ++ puts.
Proof.
  unfold device_calls.
  rewrite enqueued_app, accepted_app, produced_app, dispatched_app, filter_app.
  induction puts as [|t puts IH]; simpl.
  - rewrite !app_nil_r. auto.
  - destruct IH as (E1 & E2 & E3 & E4 & E5). split_and!; auto.
    apply app_inv_head in E5. cbn. do 2 f_equal. exact E5.
Qed.

Ltac no_puts := exists (@nil str); rewrite !app_nil_r; auto.

(** One step of the recognition loop: it leaves the flag, the stream, the
    threads and the device alone, puts only texts that are not blank, and
    moves blocks from the queue to the recognizer one at a time, in order. *)
Lemma process_audio_step_spec p w :
  let w' := fst (process_audio_step p w) in
  let p' := snd (process_audio_step p w) in
  threads w' = threads w
  /\ running (self w') = running (self w)
  /\ stream (self w') = stream (self w)
  /\ enqueued (trace w') = enqueued (trace w)
  /\ dispatched (trace w') = dispatched (trace w)
  /\ device_calls (trace w') = device_calls (trace w)
  /\ (exists puts, result_queue (self w') = result_queue (self w) ++ puts
                   /\ produced (trace w') = produced (trace w) ++ puts
                   /\ Forall nonblank puts)
  /\ accepted (trace w') ++ held p' ++ audio_queue (self w')
     = accepted (trace w) ++ held p ++ audio_queue (self w).
Proof.
  destruct p as [| |b| |e]; simpl.
  - destruct (running (self w)) eqn:Hr; simpl; rewrite ?Hr;
      split_and!; auto; no_puts.
  - unfold audio_queue_get. prog.
    destruct (audio_queue (self w)) as [|b rest] eqn:Hq; simpl.
    + rewrite Hq. split_and!; auto; no_puts.
    + split_and!; auto; no_puts.
  - destruct (recognize_frame b w)
      as (puts & Htr & Hrq & Hnb & Haq & Hrun & Hst & _ & Hth).
    unfold exec in *.
    assert (Hacc : accepted (trace (fst (recognize b w)))
                   = accepted (trace w) ++ [b]
            /\ enqueued (trace (fst (recognize b w))) = enqueued (trace w)
            /\ dispatched (trace (fst (recognize b w))) = dispatched (trace w)
            /\ device_calls (trace (fst (recognize b w)))
               = device_calls (trace w)
            /\ produced (trace (fst (recognize b w)))
               = produced (trace w) ++ puts).
    { rewrite Htr.
      change (AcceptWaveformCall b :: map ResultPut puts)
        with ([AcceptWaveformCall b] ++ map ResultPut puts).
      rewrite app_assoc.
      destruct (puts_projections (trace w ++ [AcceptWaveformCall b]) puts)
        as (-> & -> & -> & -> & ->).
      unfold device_calls.
      rewrite accepted_app, enqueued_app, dispatched_app, produced_app,
        filter_app.
      simpl. rewrite !app_nil_r. auto. }
    destruct Hacc as (Hacc & Henq & Hdis & Hdev & Hpro).
    destruct (recognize b w) as [w1 [[]|e]] eqn:Hrec; simpl in *.
    + split_and!; auto.
      * exists puts; auto.
      * rewrite Hacc, Haq, <- app_assoc. reflexivity.
    + destruct (except_process_audio_frame e w1)
        as (out & Hq & Htr' & Hself & Hth' & Hheld).
      destruct (quiet_projections (trace w1) out Hq)
        as (Q1 & Q2 & Q3 & Q4 & Q5).
      rewrite Hheld, Htr', Hself, Hth', Q1, Q2, Q3, Q4, Q5.
      split_and!; auto.
      * exists puts; auto.
      * rewrite Hacc, Haq, <- app_assoc. reflexivity.
  - split_and!; auto; no_puts.
  - split_and!; auto; no_puts.
Qed.


(** One step of the dispatch loop: it leaves the flag, the stream, the
    threads, the audio queue and the device alone, and moves texts from the
    result queue to the callback one at a time, in order. *)
Lemma output_processor_step_spec p w :
  let w' := fst (output_processor_step p w) in
  let p' := snd (output_processor_step p w) in
  threads w' = threads w
  /\ running (self w') = running (self w)
  /\ stream (self w') = stream (self w)
  /\ audio_queue (self w') = audio_queue (self w)
  /\ enqueued (trace w') = enqueued (trace w)
  /\ accepted (trace w') = accepted (trace w)
  /\ produced (trace w') = produced (trace w)
  /\ device_calls (trace w') = device_calls (trace w)
  /\ dispatched (trace w') ++ held p' ++ result_queue (self w')
     = dispatched (trace w) ++ held p ++ result_queue (self w).
Proof.
  destruct p as [| |t| |e]; simpl.
  - destruct (running (self w)) eqn:Hr; simpl; rewrite ?Hr; split_and!; auto.
  - unfold result_queue_get. prog.
    destruct (result_queue (self w)) as [|t rest] eqn:Hq; simpl.
    + rewrite Hq. split_and!; auto.
    + split_and!; auto.
  - destruct (call_callback_frame t w)
      as (out & Hq & Htr & Hrq & Haq & Hrun & Hst & _ & Hth).
    unfold exec in *.
    assert (Hpr : dispatched (trace (fst (call_callback t w)))
                  = dispatched (trace w) ++ [t]
            /\ enqueued (trace (fst (call_callback t w))) = enqueued (trace w)
            /\ accepted (trace (fst (call_callback t w))) = accepted (trace w)
            /\ produced (trace (fst (call_callback t w))) = produced (trace w)
            /\ device_calls (trace (fst (call_callback t w)))
               = device_calls (trace w)).
    { rewrite Htr.
      change (CallbackCall t :: out) with ([CallbackCall t] ++ out).
      rewrite app_assoc.
      destruct (quiet_projections (trace w ++ [CallbackCall t]) out Hq)
        as (-> & -> & -> & -> & ->).
      unfold device_calls.
      rewrite accepted_app, enqueued_app, dispatched_app, produced_app,
        filter_app.
      simpl. rewrite !app_nil_r. auto. }
    destruct Hpr as (Hdis & Henq & Hacc & Hpro & Hdev).
    destruct (call_callback t w) as [w1 [[]|e]] eqn:Hcall; simpl in *.
    + split_and!; auto. rewrite Hdis, Hrq, <- app_assoc. reflexivity.
    + destruct (except_output_processor_frame e w1)
        as (out' & Hq' & Htr' & Hself & Hth' & Hheld).
      destruct (quiet_projections (trace w1) out' Hq')
        as (Q1 & Q2 & Q3 & Q4 & Q5).
      rewrite Hheld, Htr', Hself, Hth', Q1, Q2, Q3, Q4, Q5.
      split_and!; auto. rewrite Hdis, Hrq, <- app_assoc. reflexivity.
  - split_and!; auto.
  - split_and!; auto.
Qed.

(** What [start] and [stop] do, field by field. *)
Lemma start_spec w :
  let s := {| handle := next_handle w; samplerate := sample_rate (self w);
              blocksize := block_size (self w); dtype := int16;
              channels := 1; stream_callback := audio_callback_handler |} in
  start w
  = ({| self := set_stream s (set_running true (self w));
        threads := threads w ++ [process_audio_thread AtWhile;
                                 output_processor_thread AtWhile];
        trace := trace w ++ [DevOpen s; DevStart (next_handle w);
                             ThreadStart process_audio;
                             ThreadStart output_processor;
                             Log INFO (Msg (u "Real-time STT system started"))]
     |}, Ok tt).
Proof.
  unfold start, next_handle. prog. rewrite <- !app_assoc. reflexivity.
Qed.

Lemma stop_spec w :
  stop w
  = ({| self := set_running false (self w);
        threads := threads w;
        trace := trace w
                 ++ match stream (self w) with
                    | Some s => [DevStop (handle s); DevClose (handle s)]
                    | None => []
                    end
                 ++ [Log INFO (Msg (u "Real-time STT system stopped"))] |},
     Ok tt).
Proof.
  unfold stop. prog. destruct (stream (self w)) as [s|]; prog;
    rewrite <- ?app_assoc; reflexivity.
Qed.


Lemma run_app sched1 sched2 w :
  run (sched1 ++ sched2) w = run sched2 (run sched1 w).
Proof. unfold run. apply fold_left_app. Qed.

Lemma run_cons a sched w : run (a :: sched) w = run sched (step a w).
Proof. reflexivity. Qed.

(** What the constructor leaves behind when it returns. *)
Lemma init_ok path rate cb out out' w0 :
  __init__ path rate cb out = (out', Ok w0) ->
  out' = out /\ trace w0 = out /\ threads w0 = []
  /\ audio_queue (self w0) = [] /\ result_queue (self w0) = []
  /\ running (self w0) = false /\ stream (self w0) = None
  /\ sample_rate (self w0) = rate /\ block_size (self w0) = 8000.
Proof.
  unfold __init__. intros H.
  destruct (Model path) as [m|e]; [|destruct (is_Exception e); discriminate].
  destruct (KaldiRecognizer m rate) as [r|e];
    [|destruct (is_Exception e); discriminate].
  destruct (SetWords r true) as [r' [[]|e]];
    [|destruct (is_Exception e); discriminate].
  injection H as <- <-. simpl. auto 10.
Qed.

Lemma step_clean a w : clean w -> clean (step a w).
Proof.
  intros (Hrq & Hpro & Hdis & Hth). destruct a as [| |indata frames time status|i];
    simpl.
  - unfold exec. rewrite start_spec. unfold clean; simpl.
    rewrite produced_app, dispatched_app; simpl. rewrite !app_nil_r.
    split_and!; auto. apply Forall_app. split; auto.
    repeat constructor.
  - unfold exec. rewrite stop_spec. unfold clean; simpl.
    rewrite !produced_app, !dispatched_app; simpl.
    destruct (stream (self w)); simpl; rewrite !app_nil_r; auto.
  - destruct (stream (self w)) as [s|] eqn:Hs; [|unfold clean; auto].
    destruct (stream_callback s).
    destruct (audio_callback_frame w indata frames time status)
      as (_ & _ & Htr & _ & _ & _ & Hq & Ht).
    unfold clean. rewrite Hq, Ht, Htr, !produced_app, !dispatched_app.
    destruct (flags_bool status), (running (self w)); simpl;
      rewrite !app_nil_r; auto.
  - destruct (threads w !! i) as [th|] eqn:Hi; [|unfold clean; auto].
    unfold thread_step. destruct th as [p|p].
    + pose proof (process_audio_step_spec p w) as Hs. simpl in Hs.
      destruct (process_audio_step p w) as [w' p']; simpl in *.
      destruct Hs as (Ht & _ & _ & _ & Hd & _ & (puts & Hq & Hp & Hn) & _).
      unfold clean; simpl. rewrite Hq, Hp, Hd, Ht.
      split_and!; auto; try (apply Forall_app; auto).
      apply Forall_insert; simpl; auto.
    + pose proof (output_processor_step_spec p w) as Hs. simpl in Hs.
      destruct (output_processor_step p w) as [w' p']; simpl in *.
      destruct Hs as (Ht & _ & _ & _ & _ & _ & Hp & _ & Hd).
      assert (Hall : Forall nonblank
                (dispatched (trace w') ++ held p' ++ result_queue (self w'))).
      { rewrite Hd. apply Forall_app; split; auto. apply Forall_app; split; auto.
        pose proof (proj1 (Forall_lookup _ _) Hth i _ Hi) as Hc.
        destruct p; simpl in *; auto. }
      apply Forall_app in Hall as (H1 & Hall).
      apply Forall_app in Hall as (H2 & H3).
      unfold clean; simpl. rewrite Hp, Ht. split_and!; auto.
      apply Forall_insert; auto.
      destruct p'; simpl in *; auto. inversion H2; auto.
Qed.

Lemma run_clean sched w : clean w -> clean (run sched w).
Proof.
  revert w. induction sched as [|a sched IH]; intros w Hw; [exact Hw|].
  rewrite run_cons. apply IH, step_clean, Hw.
Qed.


(** C1. In any state the pipeline can reach from the constructor, a block
    at which the recognizer reports an utterance boundary with text [t]
    makes the recognition stage put [t] on the result queue if and only if
    [t] is not empty after trimming; and no blank text is on the result
    queue or was ever handed to the callback. *)
Theorem blank_results_never_enqueued
    path rate cb w0 sched b r1 r2 result t :
  __init__ path rate cb [] = ([], Ok w0) ->
  AcceptWaveform (recognizer (self (run sched w0))) b = (r1, Ok true) ->
  Result r1 = (r2, Ok result) ->
  py_get result (u "text") (JStr []) = Ok (JStr t) ->
  let w := run sched w0 in
  result_queue (self (exec (recognize b) w))
    = result_queue (self w) ++ (if str_bool (strip t) then [t] else [])
  /\ Forall nonblank (result_queue (self w))
  /\ Forall nonblank (dispatched (trace w)).
Proof.
  intros Hinit Ha Hr Hg w.
  destruct (recognize_boundary b w r1 r2 result t Ha Hr Hg) as (_ & Hq & _).
  split; [exact Hq|].
  apply init_ok in Hinit as (_ & Htr & Hth & _ & Hrq & _).
  assert (Hc : clean w0).
  { unfold clean. rewrite Htr, Hth, Hrq. simpl. auto. }
  destruct (run_clean sched w0 Hc) as (H1 & _ & H3 & _). auto.
Qed.


Lemma step_fifo a w : a <> CallStart -> fifo w -> fifo (step a w).
Proof.
  intros Ha (p1 & p2 & Hth & Haud & Hres).
  destruct a as [| |indata frames time status|i]; [congruence| | |]; simpl.
  - unfold exec. rewrite stop_spec. exists p1, p2; simpl.
    rewrite !accepted_app, !enqueued_app, !dispatched_app, !produced_app.
    destruct (stream (self w)); simpl; rewrite !app_nil_r; auto.
  - destruct (stream (self w)) as [s|] eqn:Hs; [|exists p1, p2; auto].
    destruct (stream_callback s).
    destruct (audio_callback_frame w indata frames time status)
      as (_ & Hq & Htr & _ & _ & _ & Hrq & Ht).
    exists p1, p2. rewrite Hq, Hrq, Ht, Htr.
    rewrite !accepted_app, !enqueued_app, !dispatched_app, !produced_app.
    split; [exact Hth|].
    destruct (flags_bool status), (running (self w)); simpl;
      rewrite ?app_nil_r;
      (split; [rewrite <- Haud, <- ?app_assoc; reflexivity | exact Hres]).
  - rewrite Hth. destruct i as [|[|i]]; simpl.
    + pose proof (process_audio_step_spec p1 w) as Hs. simpl in Hs.
      destruct (process_audio_step p1 w) as [w' p']; simpl in *.
      destruct Hs as (Ht & _ & _ & He & Hd & _ & (puts & Hq & Hp & _) & Hacc).
      exists p', p2; simpl. rewrite Ht, Hth; simpl.
      rewrite Hacc, He, Hd, Hq, Hp. split_and!; auto.
      rewrite <- Hres, <- !app_assoc. reflexivity.
    + pose proof (output_processor_step_spec p2 w) as Hs. simpl in Hs.
      destruct (output_processor_step p2 w) as [w' p']; simpl in *.
      destruct Hs as (Ht & _ & _ & Hq & He & Hacc & Hp & _ & Hd).
      exists p1, p'; simpl. rewrite Ht, Hth; simpl.
      rewrite Hacc, He, Hd, Hq, Hp. auto.
    + exists p1, p2; auto.
Qed.

Lemma run_fifo sched w : CallStart ∉ sched -> fifo w -> fifo (run sched w).
Proof.
  revert w. induction sched as [|a sched IH]; intros w Hs Hw; [exact Hw|].
  rewrite run_cons. apply not_elem_of_cons in Hs as (Ha & Hs).
  apply IH; [exact Hs|]. apply step_fifo; [congruence | exact Hw].
Qed.

(** C2. After the constructor and one [start], whatever the device, the
    workers and [stop] do in whatever order: the blocks fed to
    [AcceptWaveform], then the block the recognition worker holds, then the
    blocks still queued are exactly the blocks that were enqueued, in
    enqueue order; and the texts handed to the callback, then the text the
    dispatch worker holds, then the texts still queued are exactly the
    texts that were put on the result queue, in that order.  So each stage
    consumes a prefix of what was produced for it: nothing is reordered,
    duplicated or dropped. *)
Theorem queues_are_fifo path rate cb w0 sched :
  __init__ path rate cb [] = ([], Ok w0) ->
  CallStart ∉ sched ->
  let w := run sched (exec start w0) in
  accepted (trace w) ++ held_audio (threads w) ++ audio_queue (self w)
    = enqueued (trace w)
  /\ dispatched (trace w) ++ held_text (threads w) ++ result_queue (self w)
    = produced (trace w).
Proof.
  intros Hinit Hs w.
  apply init_ok in Hinit as (_ & Htr & Hth & Haq & Hrq & _).
  assert (Hf : fifo (exec start w0)).
  { unfold exec. rewrite start_spec. exists AtWhile, AtWhile; simpl.
    rewrite Hth, Htr, Haq, Hrq. simpl. auto. }
  destruct (run_fifo sched _ Hs Hf) as (p1 & p2 & Ht & Ha & Hr).
  fold w in Ht, Ha, Hr. rewrite Ht. unfold held_audio, held_text; simpl.
  rewrite !app_nil_r. auto.
Qed.


(** What [Run i] is when thread [i] is a recognition worker, and when it
    is a dispatch worker. *)
Lemma step_run_process_audio i p w :
  threads w !! i = Some (process_audio_thread p) ->
  step (Run i) w
  = {| self := self (fst (process_audio_step p w));
       threads := <[i := process_audio_thread (snd (process_audio_step p w))]>
                    (threads (fst (process_audio_step p w)));
       trace := trace (fst (process_audio_step p w)) |}.
Proof.
  intros Hi. unfold step, thread_step. rewrite Hi.
  destruct (process_audio_step p w); reflexivity.
Qed.

Lemma step_run_output_processor i p w :
  threads w !! i = Some (output_processor_thread p) ->
  step (Run i) w
  = {| self := self (fst (output_processor_step p w));
       threads := <[i := output_processor_thread
                           (snd (output_processor_step p w))]>
                    (threads (fst (output_processor_step p w)));
       trace := trace (fst (output_processor_step p w)) |}.
Proof.
  intros Hi. unfold step, thread_step. rewrite Hi.
  destruct (output_processor_step p w); reflexivity.
Qed.

(** With a recognizer that raises nothing but [Exception]s, the [try]
    body of [_process_audio] raises nothing else either. *)
Lemma recognize_caught b w :
  (forall r x, caught (snd (AcceptWaveform r x))) ->
  (forall r, caught (snd (Result r))) ->
  caught (snd (recognize b w)).
Proof.
  intros HA HR.
  unfold recognize, recognizer_AcceptWaveform, recognizer_Result. prog.
  pose proof (HA (recognizer (self w)) b) as Ha.
  destruct (AcceptWaveform (recognizer (self w)) b) as [r1 [[|]|e]]; simpl;
    auto.
  pose proof (HR r1) as Hr.
  destruct (Result r1) as [r2 [result|e]]; simpl; auto.
  unfold py_get, py_strip, py_getitem.
  destruct result as [| | | | |l|items]; simpl; auto.
  destruct (dict_lookup (u "text") items) as [v|]; simpl; auto.
  destruct v as [| | | |t| |]; simpl; auto.
  destruct (str_bool (strip t)); simpl; auto.
Qed.

(** So the worker is back at the head of its loop after every block. *)
Lemma process_block_continues b w :
  (forall r x, caught (snd (AcceptWaveform r x))) ->
  (forall r, caught (snd (Result r))) ->
  snd (process_audio_step (Got b) w) = AtWhile.
Proof.
  intros HA HR. pose proof (recognize_caught b w HA HR) as Hc. simpl.
  destruct (recognize b w) as [w1 [[]|e]]; simpl in *; auto.
  unfold except_process_audio. destruct e; simpl in *; auto; discriminate.
Qed.

(** One full iteration of the recognition loop on the block at the head
    of the queue. *)
Lemma process_audio_iteration i b q w :
  (forall r x, caught (snd (AcceptWaveform r x))) ->
  (forall r, caught (snd (Result r))) ->
  running (self w) = true ->
  threads w !! i = Some (process_audio_thread AtWhile) ->
  audio_queue (self w) = b :: q ->
  let w' := run [Run i; Run i; Run i] w in
  threads w' !! i = Some (process_audio_thread AtWhile)
  /\ running (self w') = true
  /\ audio_queue (self w') = q
  /\ accepted (trace w') = accepted (trace w) ++ [b].
Proof.
  intros HA HR Hrun Hi Hq. cbv zeta. rewrite !run_cons.
  change (run [] ?x) with x.
  assert (Hlt : (i < length (threads w))%nat) by (eapply lookup_lt_Some; eauto).
  (* while self.running *)
  set (w1 := {| self := self w;
                threads := <[i:=process_audio_thread InGet]> (threads w);
                trace := trace w |}).
  assert (E1 : step (Run i) w = w1).
  { rewrite (step_run_process_audio i AtWhile w Hi). simpl.
    rewrite Hrun. reflexivity. }
  rewrite E1. clear E1.
  assert (Hi1 : threads w1 !! i = Some (process_audio_thread InGet))
    by (apply list_lookup_insert_eq; exact Hlt).
  (* get *)
  set (w2 := {| self := set_audio_queue q (self w);
                threads := <[i:=process_audio_thread (Got b)]>
                             (<[i:=process_audio_thread InGet]> (threads w));
                trace := trace w |}).
  assert (E2 : step (Run i) w1 = w2).
  { rewrite (step_run_process_audio i InGet w1 Hi1).
    unfold process_audio_step, audio_queue_get. prog. rewrite Hq.
    reflexivity. }
  rewrite E2. clear E2.
  assert (Hi2 : threads w2 !! i = Some (process_audio_thread (Got b))).
  { apply list_lookup_insert_eq. rewrite length_insert. exact Hlt. }
  (* the body *)
  rewrite (step_run_process_audio i (Got b) w2 Hi2).
  pose proof (process_audio_step_spec (Got b) w2) as Hs. cbv zeta in Hs.
  rewrite (process_block_continues b w2 HA HR) in *.
  assert (Hq' : audio_queue (self (fst (process_audio_step (Got b) w2))) = q).
  { destruct (recognize_frame b w2) as (_ & _ & _ & _ & Haq & _).
    simpl. unfold exec in Haq.
    destruct (recognize b w2) as [w3 [[]|e]]; simpl in *; [exact Haq|].
    destruct (except_process_audio_frame e w3) as (_ & _ & _ & -> & _).
    exact Haq. }
  set (w3 := fst (process_audio_step (Got b) w2)) in *.
  destruct Hs as (Ht & Hr & _ & _ & _ & _ & _ & Hacc).
  cbn [self threads trace]. rewrite Ht. split_and!.
  - apply list_lookup_insert_eq. subst w2; simpl.
    rewrite !length_insert. exact Hlt.
  - rewrite Hr. exact Hrun.
  - exact Hq'.
  - rewrite Hq' in Hacc. simpl in Hacc.
    change (b :: q) with ([b] ++ q) in Hacc. rewrite app_assoc in Hacc.
    apply app_inv_tail in Hacc. exact Hacc.
Qed.

(** The recognition worker, left to run, feeds every queued block to the
    recognizer, in order. *)
Lemma process_audio_drains i q : forall w,
  (forall r x, caught (snd (AcceptWaveform r x))) ->
  (forall r, caught (snd (Result r))) ->
  running (self w) = true ->
  threads w !! i = Some (process_audio_thread AtWhile) ->
  audio_queue (self w) = q ->
  let w' := run (repeat (Run i) (3 * length q)) w in
  threads w' !! i = Some (process_audio_thread AtWhile)
  /\ running (self w') = true
  /\ audio_queue (self w') = []
  /\ accepted (trace w') = accepted (trace w) ++ q.
Proof.
  induction q as [|b q IH]; intros w HA HR Hrun Hi Hq; cbv zeta.
  - simpl. rewrite app_nil_r. auto.
  - change (length (b :: q)) with (S (length q)).
    replace (3 * S (length q))%nat with (3 + 3 * length q)%nat by lia.
    rewrite repeat_app, run_app.
    change (repeat (Run i) 3) with [Run i; Run i; Run i].
    destruct (process_audio_iteration i b q w HA HR Hrun Hi Hq)
      as (Hi' & Hrun' & Hq' & Hacc').
    destruct (IH _ HA HR Hrun' Hi' Hq') as (H1 & H2 & H3 & H4).
    split_and!; auto. rewrite H4, Hacc', <- app_assoc. reflexivity.
Qed.


(** C3. When [AcceptWaveform] raises an [Exception] on the block the
    recognition worker holds, the worker logs the error and is back at the
    head of its loop with the flag and the queue untouched; and, with a
    recognizer whose failures are all [Exception]s, the worker then feeds
    every block that was waiting to the recognizer, in order: the failing
    block ends neither the stage nor the processing of the later blocks. *)
Theorem failing_block_does_not_stop_recognition i b msg r1 w :
  (forall r x, caught (snd (AcceptWaveform r x))) ->
  (forall r, caught (snd (Result r))) ->
  running (self w) = true ->
  threads w !! i = Some (process_audio_thread (Got b)) ->
  AcceptWaveform (recognizer (self w)) b = (r1, Raise (Exception msg)) ->
  let w1 := step (Run i) w in
  let w2 := run (repeat (Run i) (3 * length (audio_queue (self w)))) w1 in
  trace w1
    = trace w ++ [AcceptWaveformCall b;
                  Log ERROR (Msg (u "Error processing audio: " ++ msg))]
  /\ threads w1 !! i = Some (process_audio_thread AtWhile)
  /\ running (self w1) = true
  /\ audio_queue (self w1) = audio_queue (self w)
  /\ accepted (trace w2) = accepted (trace w) ++ b :: audio_queue (self w)
  /\ threads w2 !! i = Some (process_audio_thread AtWhile).
Proof.
  intros HA HR Hrun Hi Hfail w1 w2.
  assert (Hlt : (i < length (threads w))%nat) by (eapply lookup_lt_Some; eauto).
  assert (E : w1 = {| self := set_recognizer r1 (self w);
                      threads := <[i:=process_audio_thread AtWhile]> (threads w);
                      trace := trace w
                        ++ [AcceptWaveformCall b;
                            Log ERROR (Msg (u "Error processing audio: "
                                            ++ msg))] |}).
  { subst w1. rewrite (step_run_process_audio i (Got b) w Hi).
    unfold process_audio_step, recognize, recognizer_AcceptWaveform. prog.
    rewrite Hfail. simpl. rewrite <- app_assoc. reflexivity. }
  assert (Hi1 : threads w1 !! i = Some (process_audio_thread AtWhile)).
  { rewrite E. simpl. apply list_lookup_insert_eq. exact Hlt. }
  assert (Hrun1 : running (self w1) = true) by (rewrite E; exact Hrun).
  assert (Hq1 : audio_queue (self w1) = audio_queue (self w))
    by (rewrite E; reflexivity).
  destruct (process_audio_drains i (audio_queue (self w)) w1 HA HR Hrun1 Hi1 Hq1)
    as (H1 & _ & _ & H4).
  fold w2 in H1, H4. split_and!; auto.
  - rewrite E. reflexivity.
  - rewrite H4, E. simpl. rewrite accepted_app. simpl.
    rewrite <- app_assoc. reflexivity.
Qed.

(** The same for the dispatch stage. *)
Lemma call_callback_caught t w :
  (forall c x, caught (snd (call c x))) ->
  caught (snd (call_callback t w)).
Proof.
  intros HC. unfold call_callback, _default_callback. prog.
  destruct (callback (self w)) as [|c]; simpl.
  - destruct (str_bool (strip t)); simpl; auto.
  - pose proof (HC c t) as Hc. destruct (call c t) as [c' o]; exact Hc.
Qed.

Lemma dispatch_continues t w :
  (forall c x, caught (snd (call c x))) ->
  snd (output_processor_step (Got t) w) = AtWhile.
Proof.
  intros HC. pose proof (call_callback_caught t w HC) as Hc. simpl.
  destruct (call_callback t w) as [w1 [[]|e]]; simpl in *; auto.
  unfold except_output_processor. destruct e; simpl in *; auto; discriminate.
Qed.

Lemma output_processor_iteration i t q w :
  (forall c x, caught (snd (call c x))) ->
  running (self w) = true ->
  threads w !! i = Some (output_processor_thread AtWhile) ->
  result_queue (self w) = t :: q ->
  let w' := run [Run i; Run i; Run i] w in
  threads w' !! i = Some (output_processor_thread AtWhile)
  /\ running (self w') = true
  /\ result_queue (self w') = q
  /\ dispatched (trace w') = dispatched (trace w) ++ [t].
Proof.
  intros HC Hrun Hi Hq. cbv zeta. rewrite !run_cons.
  change (run [] ?x) with x.
  assert (Hlt : (i < length (threads w))%nat) by (eapply lookup_lt_Some; eauto).
  set (w1 := {| self := self w;
                threads := <[i:=output_processor_thread InGet]> (threads w);
                trace := trace w |}).
  assert (E1 : step (Run i) w = w1).
  { rewrite (step_run_output_processor i AtWhile w Hi). simpl.
    rewrite Hrun. reflexivity. }
  rewrite E1. clear E1.
  assert (Hi1 : threads w1 !! i = Some (output_processor_thread InGet))
    by (apply list_lookup_insert_eq; exact Hlt).
  set (w2 := {| self := set_result_queue q (self w);
                threads := <[i:=output_processor_thread (Got t)]>
                             (<[i:=output_processor_thread InGet]> (threads w));
                trace := trace w |}).
  assert (E2 : step (Run i) w1 = w2).
  { rewrite (step_run_output_processor i InGet w1 Hi1).
    unfold output_processor_step, result_queue_get. prog. rewrite Hq.
    reflexivity. }
  rewrite E2. clear E2.
  assert (Hi2 : threads w2 !! i = Some (output_processor_thread (Got t))).
  { apply list_lookup_insert_eq. rewrite length_insert. exact Hlt. }
  rewrite (step_run_output_processor i (Got t) w2 Hi2).
  pose proof (output_processor_step_spec (Got t) w2) as Hs. cbv zeta in Hs.
  rewrite (dispatch_continues t w2 HC) in *.
  assert (Hq' : result_queue (self (fst (output_processor_step (Got t) w2)))
                = q).
  { destruct (call_callback_frame t w2) as (_ & _ & _ & Hrq & _).
    simpl. unfold exec in Hrq.
    destruct (call_callback t w2) as [w3 [[]|e]]; simpl in *; [exact Hrq|].
    destruct (except_output_processor_frame e w3) as (_ & _ & _ & -> & _).
    exact Hrq. }
  set (w3 := fst (output_processor_step (Got t) w2)) in *.
  destruct Hs as (Ht & Hr & _ & _ & _ & _ & _ & _ & Hdis).
  cbn [self threads trace]. rewrite Ht. split_and!.
  - apply list_lookup_insert_eq. subst w2; simpl.
    rewrite !length_insert. exact Hlt.
  - rewrite Hr. exact Hrun.
  - exact Hq'.
  - rewrite Hq' in Hdis. simpl in Hdis.
    change (t :: q) with ([t] ++ q) in Hdis. rewrite app_assoc in Hdis.
    apply app_inv_tail in Hdis. exact Hdis.
Qed.

Lemma output_processor_drains i q : forall w,
  (forall c x, caught (snd (call c x))) ->
  running (self w) = true ->
  threads w !! i = Some (output_processor_thread AtWhile) ->
  result_queue (self w) = q ->
  let w' := run (repeat (Run i) (3 * length q)) w in
  threads w' !! i = Some (output_processor_thread AtWhile)
  /\ running (self w') = true
  /\ result_queue (self w') = []
  /\ dispatched (trace w') = dispatched (trace w) ++ q.
Proof.
  induction q as [|t q IH]; intros w HC Hrun Hi Hq; cbv zeta.
  - simpl. rewrite app_nil_r. auto.
  - change (length (t :: q)) with (S (length q)).
    replace (3 * S (length q))%nat with (3 + 3 * length q)%nat by lia.
    rewrite repeat_app, run_app.
    change (repeat (Run i) 3) with [Run i; Run i; Run i].
    destruct (output_processor_iteration i t q w HC Hrun Hi Hq)
      as (Hi' & Hrun' & Hq' & Hdis').
    destruct (IH _ HC Hrun' Hi' Hq') as (H1 & H2 & H3 & H4).
    split_and!; auto. rewrite H4, Hdis', <- app_assoc. reflexivity.
Qed.

(** C4 (as amended). When the consumer callback raises on the text the
    dispatch worker holds, what happens depends on the class of the
    exception.  An instance of [Exception] is caught: the worker is back at
    the head of its loop, and the error is logged unless the exception is
    [queue.Empty], which the first handler takes for a poll that timed out
    and does not log.  An exception outside [Exception] ([SystemExit],
    [KeyboardInterrupt]) is not caught: nothing is logged and the worker
    is dead.  In every case the flag, the queues and every other thread
    are untouched.  When the exception is an [Exception] and all later
    failures of the callback are too, the worker then hands every text
    that was waiting to the callback, in order. *)
Theorem failing_callback_does_not_stop_dispatch i t e c c' w :
  running (self w) = true ->
  threads w !! i = Some (output_processor_thread (Got t)) ->
  callback (self w) = user_callback c ->
  call c t = (c', Raise e) ->
  let w1 := step (Run i) w in
  let w2 := run (repeat (Run i) (3 * length (result_queue (self w)))) w1 in
  trace w1
    = trace w ++ CallbackCall t
              :: match e with
                 | Exception msg =>
                     [Log ERROR (Msg (u "Error in output processor: " ++ msg))]
                 | _ => []
                 end
  /\ threads w1 !! i
     = Some (output_processor_thread
               (if is_Exception e then AtWhile else Died e))
  /\ (forall j, j <> i -> threads w1 !! j = threads w !! j)
  /\ running (self w1) = true
  /\ result_queue (self w1) = result_queue (self w)
  /\ audio_queue (self w1) = audio_queue (self w)
  /\ (is_Exception e = true ->
      (forall k x, caught (snd (call k x))) ->
      dispatched (trace w2)
        = dispatched (trace w) ++ t :: result_queue (self w)
      /\ threads w2 !! i = Some (output_processor_thread AtWhile)).
Proof.
  intros Hrun Hi Hcb Hfail w1 w2.
  assert (Hlt : (i < length (threads w))%nat) by (eapply lookup_lt_Some; eauto).
  assert (E : w1 = {| self := set_callback (user_callback c') (self w);
                      threads := <[i:=output_processor_thread
                                        (if is_Exception e then AtWhile
                                         else Died e)]> (threads w);
                      trace := trace w ++ CallbackCall t
                        :: match e with
                           | Exception msg =>
                               [Log ERROR
                                  (Msg (u "Error in output processor: "
                                        ++ msg))]
                           | _ => []
                           end |}).
  { subst w1. rewrite (step_run_output_processor i (Got t) w Hi).
    unfold output_processor_step, call_callback. prog.
    rewrite Hcb. simpl. rewrite Hfail. simpl.
    unfold except_output_processor. destruct e; simpl;
      rewrite <- ?app_assoc; reflexivity. }
  split_and!.
  - rewrite E. reflexivity.
  - rewrite E. simpl. apply list_lookup_insert_eq. exact Hlt.
  - intros j Hj. rewrite E. simpl. apply list_lookup_insert_ne. congruence.
  - rewrite E. exact Hrun.
  - rewrite E. reflexivity.
  - rewrite E. reflexivity.
  - intros He HC.
    assert (Hi1 : threads w1 !! i = Some (output_processor_thread AtWhile)).
    { rewrite E. simpl. rewrite He. apply list_lookup_insert_eq. exact Hlt. }
    assert (Hrun1 : running (self w1) = true) by (rewrite E; exact Hrun).
    assert (Hq1 : result_queue (self w1) = result_queue (self w))
      by (rewrite E; reflexivity).
    destruct (output_processor_drains i (result_queue (self w)) w1
                HC Hrun1 Hi1 Hq1) as (H1 & _ & _ & H4).
    fold w2 in H1, H4. split; [|exact H1].
    rewrite H4, E. cbn [trace].
    change (CallbackCall t :: match e with
                              | Exception msg =>
                                  [Log ERROR
                                     (Msg (u "Error in output processor: "
                                           ++ msg))]
                              | _ => []
                              end)
      with ([CallbackCall t] ++ match e with
                                | Exception msg =>
                                    [Log ERROR
                                       (Msg (u "Error in output processor: "
                                             ++ msg))]
                                | _ => []
                                end).
    rewrite !dispatched_app. destruct e; simpl; rewrite ?app_nil_r;
      rewrite <- ?app_assoc; reflexivity.
Qed.


(** C5 (what the code does). When [Model(path)] raises, the constructor
    prints the two messages and raises [SystemExit(1)], and no call is
    made on the sound device; but in [main] the [finally] block then calls
    [sys.exit(0)], whose [SystemExit(0)] replaces the one on its way out:
    the process ends with exit status 0. *)
Theorem main_exits_zero_when_model_fails path rate msg background :
  Model path = Raise (Exception msg) ->
  (forall (cb : option C) out,
      __init__ path rate cb out
      = (out ++ [Print (u "Error loading model: " ++ msg);
                 Print (u "Please ensure you have downloaded the Vosk model.")],
         Raise (SystemExit 1)))
  /\ snd (main path rate background) = 0
  /\ device_calls (fst (main path rate background)) = [].
Proof.
  intros Hm.
  assert (Hi : forall (cb : option C) out,
      __init__ path rate cb out
      = (out ++ [Print (u "Error loading model: " ++ msg);
                 Print (u "Please ensure you have downloaded the Vosk model.")],
         Raise (SystemExit 1))).
  { intros cb out. unfold __init__. rewrite Hm. reflexivity. }
  split; [exact Hi|]. unfold main. rewrite Hi. simpl. auto.
Qed.

(** C6 (as amended). [stop] never raises, and a second [stop] leaves the
    object and the threads as the first one left them, with the flag
    false.  Before any [start] there is no stream and [stop] makes no call
    on the device.  Once [start] has created a stream, every [stop], also a
    second one in succession and one made while the system is not
    running, calls [stop] and [close] on that stream again and logs
    again. *)
Theorem stop_repeats_the_release w :
  let w1 := exec stop w in
  let w2 := exec stop w1 in
  snd (stop w) = Ok tt /\ snd (stop w1) = Ok tt
  /\ running (self w1) = false
  /\ self w2 = self w1 /\ threads w2 = threads w1 /\ threads w1 = threads w
  /\ audio_queue (self w1) = audio_queue (self w)
  /\ result_queue (self w1) = result_queue (self w)
  /\ stream (self w1) = stream (self w)
  /\ trace w1
     = trace w ++ release (stream (self w))
       ++ [Log INFO (Msg (u "Real-time STT system stopped"))]
  /\ trace w2
     = trace w1 ++ release (stream (self w))
       ++ [Log INFO (Msg (u "Real-time STT system stopped"))].
Proof.
  cbv zeta. unfold exec. rewrite !stop_spec. simpl. split_and!; auto.
Qed.


(** The dispatch worker hands the text it holds to the callback. *)
Lemma dispatch_held t w :
  dispatched (trace (fst (output_processor_step (Got t) w)))
  = dispatched (trace w) ++ [t].
Proof.
  pose proof (output_processor_step_spec (Got t) w) as Hs. cbv zeta in Hs.
  destruct Hs as (_ & _ & _ & _ & _ & _ & _ & _ & Hdis).
  assert (Hh : held (snd (output_processor_step (Got t) w)) = []
               /\ result_queue (self (fst (output_processor_step (Got t) w)))
                  = result_queue (self w)).
  { destruct (call_callback_frame t w) as (_ & _ & _ & Hrq & _).
    simpl. unfold exec in Hrq.
    destruct (call_callback t w) as [w1 [[]|e]]; simpl in *; [auto|].
    destruct (except_output_processor_frame e w1) as (_ & _ & _ & -> & _ & ->).
    auto. }
  destruct Hh as (Hh & Hq). rewrite Hh, Hq in Hdis. simpl in Hdis.
  change (t :: result_queue (self w)) with ([t] ++ result_queue (self w))
    in Hdis.
  rewrite app_assoc in Hdis. apply app_inv_tail in Hdis. exact Hdis.
Qed.

(** C9. The text that reaches the callback is the 'text' field of the
    recognizer's result as it is: when the recognition worker processes a
    block at which a boundary is reported with a text [t] that is not
    blank, and the dispatch worker then runs one iteration, [t] itself is
    what was put on the result queue and what the callback is called
    with, its leading and trailing white space included. *)
Theorem text_is_delivered_unmodified i j b r1 r2 result t w :
  i <> j ->
  running (self w) = true ->
  threads w !! i = Some (process_audio_thread (Got b)) ->
  threads w !! j = Some (output_processor_thread AtWhile) ->
  result_queue (self w) = [] ->
  AcceptWaveform (recognizer (self w)) b = (r1, Ok true) ->
  Result r1 = (r2, Ok result) ->
  py_get result (u "text") (JStr []) = Ok (JStr t) ->
  nonblank t ->
  let w' := run [Run i; Run j; Run j; Run j] w in
  produced (trace w') = produced (trace w) ++ [t]
  /\ dispatched (trace w') = dispatched (trace w) ++ [t].
Proof.
  intros Hij Hrun Hi Hj Hq Ha Hr Hg Hnb. cbv zeta. rewrite !run_cons.
  change (run [] ?x) with x.
  assert (Hlj : (j < length (threads w))%nat) by (eapply lookup_lt_Some; eauto).
  (* the recognition worker processes the block *)
  destruct (recognize_boundary b w r1 r2 result t Ha Hr Hg) as (Ho & Hrq & Htr).
  destruct (recognize_frame b w) as (_ & _ & _ & _ & _ & Hrun' & _ & _ & Hth).
  unfold nonblank in Hnb. rewrite Hnb, Hq in *. unfold exec in *.
  set (w1 := step (Run i) w).
  assert (E1 : trace w1 = trace w ++ [AcceptWaveformCall b; ResultPut t]
               /\ result_queue (self w1) = [t]
               /\ running (self w1) = true
               /\ threads w1 !! j = Some (output_processor_thread AtWhile)).
  { subst w1. rewrite (step_run_process_audio i (Got b) w Hi). simpl.
    destruct (recognize b w) as [wr [[]|e]]; simpl in *; [|discriminate].
    rewrite Hth. split_and!; auto; [congruence|].
    rewrite list_lookup_insert_ne; auto. }
  destruct E1 as (Ht1 & Hq1 & Hr1 & Hj1).
  (* the dispatch worker tests the flag *)
  set (w2 := step (Run j) w1).
  assert (E2 : trace w2 = trace w1 /\ result_queue (self w2) = [t]
               /\ threads w2 !! j = Some (output_processor_thread InGet)).
  { subst w2. rewrite (step_run_output_processor j AtWhile w1 Hj1). simpl.
    rewrite Hr1. simpl. split_and!; auto.
    apply list_lookup_insert_eq. eapply lookup_lt_Some; eauto. }
  destruct E2 as (Ht2 & Hq2 & Hj2).
  (* it takes the text off the queue *)
  set (w3 := step (Run j) w2).
  assert (E3 : trace w3 = trace w2
               /\ threads w3 !! j = Some (output_processor_thread (Got t))).
  { subst w3. rewrite (step_run_output_processor j InGet w2 Hj2).
    unfold output_processor_step, result_queue_get. prog. rewrite Hq2. simpl.
    split; auto. apply list_lookup_insert_eq. eapply lookup_lt_Some; eauto. }
  destruct E3 as (Ht3 & Hj3).
  (* and calls the callback with it *)
  rewrite (step_run_output_processor j (Got t) w3 Hj3). cbn [trace].
  pose proof (output_processor_step_spec (Got t) w3) as Hs. cbv zeta in Hs.
  destruct Hs as (_ & _ & _ & _ & _ & _ & Hp & _).
  rewrite Hp, dispatch_held, Ht3, Ht2, Ht1.
  rewrite produced_app, dispatched_app. simpl. rewrite app_nil_r. auto.
Qed.



End Properties.

(* ===================================================================== *)
(** ** The theorems at concrete inputs                                    *)
(* ===================================================================== *)

(** The three-block scenario after its second block: "hello world" is
    queued, and the blank text of the third block is not added. *)
Lemma blank_results_never_enqueued_witness :
  let w := run (vosk := three_blocks) (consumer := scripted_consumer)
               after_two_blocks three_blocks_fresh in
  result_queue (self w) = [u "hello world"]
  /\ str_bool (strip (u "  ")) = false
  /\ result_queue (self (exec (recognize (vosk := three_blocks) (block 3)) w))
     = result_queue (self w)
       ++ (if str_bool (strip (u "  ")) then [u "  "] else [])
  /\ Forall nonblank (result_queue (self w))
  /\ Forall nonblank (dispatched (trace w)).
Proof.
  split; [vm_compute; reflexivity|].
  split; [vm_compute; reflexivity|].
  apply (blank_results_never_enqueued
           (vosk := three_blocks) (consumer := scripted_consumer)
           (u "vosk-model-small-en-us-0.15") 16000 None
           three_blocks_fresh after_two_blocks (block 3)
           {| script := []; latest := Ok (JDict [(u "text", JStr (u "  "))]) |}
           {| script := []; latest := Ok (JDict [(u "text", JStr (u "  "))]) |}
           (JDict [(u "text", JStr (u "  "))]) (u "  "));
    vm_compute; reflexivity.
Defined.

(** Five blocks delivered, three of them recognized, one text dispatched:
    each stage has consumed a prefix of what was produced for it. *)
Lemma queues_are_fifo_witness :
  let w := run (vosk := three_blocks) (consumer := scripted_consumer)
               five_blocks (exec start three_blocks_fresh) in
  accepted (trace w) = [block 1; block 2; block 3]
  /\ audio_queue (self w) = [block 4; block 5]
  /\ dispatched (trace w) = [u "hello world"]
  /\ accepted (trace w) ++ held_audio (threads w) ++ audio_queue (self w)
     = enqueued (trace w)
  /\ dispatched (trace w) ++ held_text (threads w) ++ result_queue (self w)
     = produced (trace w).
Proof.
  split; [vm_compute; reflexivity|].
  split; [vm_compute; reflexivity|].
  split; [vm_compute; reflexivity|].
  apply (queues_are_fifo
           (vosk := three_blocks) (consumer := scripted_consumer)
           (u "vosk-model-small-en-us-0.15") 16000 None
           three_blocks_fresh five_blocks).
  - vm_compute; reflexivity.
  - unfold five_blocks. intros H. repeat (apply elem_of_cons in H as [H|H]; [discriminate H|]).
    inversion H.
Defined.

(** The recognizer fails on block 3 of 5; blocks 4 and 5 are still fed
    to it. *)
Lemma failing_block_does_not_stop_recognition_witness :
  (threads at_block_3 !! 0%nat = Some (process_audio_thread (Got (block 3)))
   /\ audio_queue (self at_block_3) = [block 4; block 5]
   /\ accepted (trace at_block_3) = [block 1; block 2])
  /\ let w1 := step (vosk := faulty_vosk) (consumer := scripted_consumer)
                    (Run 0%nat) at_block_3 in
     let w2 := run (vosk := faulty_vosk) (consumer := scripted_consumer)
                   (repeat (Run 0%nat)
                           (3 * length (audio_queue (self at_block_3)))) w1 in
     trace w1
       = trace at_block_3
         ++ [AcceptWaveformCall (block 3);
             Log ERROR (Msg (u "Error processing audio: "
                             ++ u "decoder failure"))]
     /\ threads w1 !! 0%nat = Some (process_audio_thread AtWhile)
     /\ running (self w1) = true
     /\ audio_queue (self w1) = audio_queue (self at_block_3)
     /\ accepted (trace w2)
        = accepted (trace at_block_3)
          ++ block 3 :: audio_queue (self at_block_3)
     /\ threads w2 !! 0%nat = Some (process_audio_thread AtWhile).
Proof.
  split; [vm_compute; auto|].
  apply (failing_block_does_not_stop_recognition
           (vosk := faulty_vosk) (consumer := scripted_consumer)
           0%nat (block 3) (u "decoder failure") 3%nat at_block_3).
  - intros r x. simpl. destruct (r =? 2)%nat; simpl; auto.
  - intros r. simpl. auto.
  - vm_compute; reflexivity.
  - vm_compute; reflexivity.
  - vm_compute; reflexivity.
Defined.

(** The callback fails with an [Exception] on the first text; the error
    is logged and the second text is still delivered. *)
Lemma failing_callback_does_not_stop_dispatch_witness :
  (threads at_result_1 !! 1%nat
     = Some (output_processor_thread (Got (u "one")))
   /\ result_queue (self at_result_1) = [u "two"]
   /\ dispatched (trace at_result_1) = [])
  /\ let w1 := step (vosk := two_results) (consumer := flaky_consumer)
                    (Run 1%nat) at_result_1 in
     let w2 := run (vosk := two_results) (consumer := flaky_consumer)
                   (repeat (Run 1%nat)
                           (3 * length (result_queue (self at_result_1)))) w1 in
     trace w1
       = trace at_result_1 ++ CallbackCall (u "one")
           :: match Exception (u "consumer failed") with
              | Exception msg =>
                  [Log ERROR (Msg (u "Error in output processor: " ++ msg))]
              | _ => []
              end
     /\ threads w1 !! 1%nat
        = Some (output_processor_thread
                  (if is_Exception (Exception (u "consumer failed"))
                   then AtWhile
                   else Died (Exception (u "consumer failed"))))
     /\ (forall j, j <> 1%nat -> threads w1 !! j = threads at_result_1 !! j)
     /\ running (self w1) = true
     /\ result_queue (self w1) = result_queue (self at_result_1)
     /\ audio_queue (self w1) = audio_queue (self at_result_1)
     /\ (is_Exception (Exception (u "consumer failed")) = true ->
         (forall k x, caught (snd (call (Consumer := flaky_consumer) k x))) ->
         dispatched (trace w2)
           = dispatched (trace at_result_1)
             ++ u "one" :: result_queue (self at_result_1)
         /\ threads w2 !! 1%nat = Some (output_processor_thread AtWhile)).
Proof.
  split; [vm_compute; auto|].
  apply (failing_callback_does_not_stop_dispatch
           (vosk := two_results) (consumer := flaky_consumer)
           1%nat (u "one") (Exception (u "consumer failed")) 0%nat 1%nat
           at_result_1);
    vm_compute; reflexivity.
Defined.

(** A callback that calls [sys.exit(0)] on the first text: nothing is
    logged, the dispatch worker is dead, and although the system is still
    running, the second text stays on the result queue however often the
    worker is scheduled. *)
Lemma callback_exit_stops_delivery :
  let w1 := step (vosk := plain) (consumer := scripted_consumer)
                 (Run 1%nat) at_result_1_exiting in
  let w2 := run (vosk := plain) (consumer := scripted_consumer)
                (repeat (Run 1%nat) 9) w1 in
  threads at_result_1_exiting !! 1%nat
    = Some (output_processor_thread (Got (u "one")))
  /\ result_queue (self at_result_1_exiting) = [u "two"]
  /\ trace w1 = trace at_result_1_exiting ++ [CallbackCall (u "one")]
  /\ threads w1 !! 1%nat
     = Some (output_processor_thread (Died (SystemExit 0)))
  /\ running (self w2) = true
  /\ dispatched (trace w2) = [u "one"]
  /\ result_queue (self w2) = [u "two"].
Proof. vm_compute. auto 10. Qed.

Ltac not_started :=
  let H := fresh in
  intros H; repeat (apply elem_of_cons in H as [H|H]; [discriminate H|]);
  inversion H.

(** [main] with a model path at which [Model] raises. *)
Lemma main_exits_zero_when_model_fails_witness :
  Model (Vosk := three_blocks) (u "missing")
    = Raise (Exception (u "Failed to create a model"))
  /\ snd (__init__ (vosk := three_blocks) (C := list (outcome unit))
                   (u "missing") 16000 None [])
     = Raise (SystemExit 1)
  /\ snd (main (vosk := three_blocks) (consumer := scripted_consumer)
               (u "missing") 16000 []) = 0
  /\ device_calls (fst (main (vosk := three_blocks)
                             (consumer := scripted_consumer)
                             (u "missing") 16000 [])) = [].
Proof.
  split; [vm_compute; reflexivity|].
  destruct (main_exits_zero_when_model_fails
              (vosk := three_blocks) (consumer := scripted_consumer)
              (u "missing") 16000 (u "Failed to create a model") [])
    as (Hinit & Hexit & Hdev).
  - vm_compute; reflexivity.
  - split; [rewrite Hinit; reflexivity|]. split; [exact Hexit | exact Hdev].
Defined.

(** After [start] and one [stop], the system is not running; a second
    [stop] is not a no-op: it calls [stop] and [close] on the stream
    again, so that the stream is closed twice. *)
Lemma stop_twice_closes_the_stream_twice :
  let w1 := exec stop
                 (exec start three_blocks_fresh) in
  let w2 := exec stop w1 in
  running (self w1) = false
  /\ closes 0 (trace w1) = 1%nat
  /\ closes 0 (trace w2) = 2%nat
  /\ device_calls (trace w2) <> device_calls (trace w1)
  /\ w2 <> w1.
Proof.
  cbv zeta. split_and!; try (vm_compute; reflexivity).
  - vm_compute. discriminate.
  - intros H. apply (f_equal (fun w => length (trace w))) in H.
    vm_compute in H. discriminate H.
Qed.



(** A text with white space on both sides reaches the callback as it
    is, although trimming it would give a different string. *)
Lemma text_is_delivered_unmodified_witness :
  strip (u "  hello world ") = u "hello world"
  /\ let w' := run (vosk := padded) (consumer := scripted_consumer)
                   [Run 0%nat; Run 1%nat; Run 1%nat; Run 1%nat]
                   at_padded_block in
     produced (trace w')
       = produced (trace at_padded_block) ++ [u "  hello world "]
     /\ dispatched (trace w')
        = dispatched (trace at_padded_block) ++ [u "  hello world "].
Proof.
  split; [vm_compute; reflexivity|].
  apply (text_is_delivered_unmodified
           (vosk := padded) (consumer := scripted_consumer)
           0%nat 1%nat (block 1)
           {| script := [];
              latest := Ok (JDict [(u "text", JStr (u "  hello world "))]) |}
           {| script := [];
              latest := Ok (JDict [(u "text", JStr (u "  hello world "))]) |}
           (JDict [(u "text", JStr (u "  hello world "))])
           (u "  hello world ") at_padded_block);
    try (vm_compute; reflexivity).
  discriminate.
Defined.


(* ===================================================================== *)
(** ** Further properties of the code                                     *)
(* ===================================================================== *)

Section Further.

Context {M R C : Type} {vosk : Vosk M R} {consumer : Consumer C}.

Local Abbreviation W := (World M R C).

Implicit Types (w : W) (b : bytes) (t : str) (tr : list event).

Ltac unfold_prog :=
  cbv [bind ret raise lift when exec read modify emit spawn
       audio_queue_put result_queue_put audio_queue_get result_queue_get
       py_bytes]; simpl.

(** [lstrip] stops at the first code point that is not white space. *)
Lemma lstrip_nil s : lstrip s = [] <-> forallb isspace s = true.
Proof.
  induction s as [|c s IH]; simpl; [tauto|].
  destruct (isspace c); simpl; [exact IH|]. split; discriminate.
Qed.

Lemma lstrip_keeps_nonspace s :
  forallb isspace s = false -> forallb isspace (lstrip s) = false.
Proof.
  induction s as [|c s IH]; simpl; [discriminate|].
  destruct (isspace c) eqn:Hc; simpl; [exact IH|]. rewrite Hc. reflexivity.
Qed.

Lemma forallb_rev (l : str) : forallb isspace (rev l) = forallb isspace l.
Proof.
  induction l as [|c l IH]; simpl; [reflexivity|].
  rewrite forallb_app, IH. simpl. rewrite andb_true_r, andb_comm. reflexivity.
Qed.

(** A text is blank for [strip] exactly when all its code points are white
    space. *)
Lemma strip_blank t : str_bool (strip t) = negb (forallb isspace t).
Proof.
  unfold strip, rstrip.
  destruct (forallb isspace t) eqn:Hall; simpl.
  - apply lstrip_nil in Hall. rewrite Hall. reflexivity.
  - apply lstrip_keeps_nonspace in Hall.
    rewrite <- forallb_rev in Hall. apply lstrip_keeps_nonspace in Hall.
    rewrite <- forallb_rev in Hall.
    destruct (rev (lstrip (rev (lstrip t)))); [discriminate | reflexivity].
Qed.

(** X1. At an utterance boundary the text is dropped exactly when every
    one of its code points is white space (the empty text included), and
    is put on the result queue when at least one is not. *)
Theorem whitespace_only_text_is_dropped b w r1 r2 result t :
  AcceptWaveform (recognizer (self w)) b = (r1, Ok true) ->
  Result r1 = (r2, Ok result) ->
  py_get result (u "text") (JStr []) = Ok (JStr t) ->
  result_queue (self (exec (recognize b) w))
  = result_queue (self w) ++ (if forallb isspace t then [] else [t]).
Proof.
  intros Ha Hr Hg.
  destruct (recognize_boundary b w r1 r2 result t Ha Hr Hg) as (_ & Hq & _).
  rewrite Hq, strip_blank. destruct (forallb isspace t); reflexivity.
Qed.

(** X2. A result document without a 'text' key counts as the empty text:
    nothing is put on the result queue, nothing is logged, and the worker
    goes on with its loop. *)
Theorem missing_text_key_is_skipped i b r1 r2 items w :
  threads w !! i = Some (process_audio_thread (Got b)) ->
  AcceptWaveform (recognizer (self w)) b = (r1, Ok true) ->
  Result r1 = (r2, Ok (JDict items)) ->
  dict_lookup (u "text") items = None ->
  let w1 := step (Run i) w in
  trace w1 = trace w ++ [AcceptWaveformCall b]
  /\ result_queue (self w1) = result_queue (self w)
  /\ threads w1 !! i = Some (process_audio_thread AtWhile).
Proof.
  intros Hi Ha Hr Hk. cbv zeta.
  assert (Hlt : (i < length (threads w))%nat) by (eapply lookup_lt_Some; eauto).
  rewrite (step_run_process_audio i (Got b) w Hi).
  unfold process_audio_step, recognize, recognizer_AcceptWaveform,
    recognizer_Result. unfold_prog.
  rewrite Ha. simpl. rewrite Hr. simpl. rewrite Hk. simpl.
  split_and!; auto. apply list_lookup_insert_eq. exact Hlt.
Qed.

(** X3. A result document that is not an object, or whose 'text' is not
    a string, makes the filter itself fail: one error is logged, nothing is
    put on the result queue, and the worker goes on with its loop. *)
Theorem malformed_result_is_logged_and_skipped i b r1 r2 result w :
  threads w !! i = Some (process_audio_thread (Got b)) ->
  AcceptWaveform (recognizer (self w)) b = (r1, Ok true) ->
  Result r1 = (r2, Ok result) ->
  (forall t, py_get result (u "text") (JStr []) <> Ok (JStr t)) ->
  let w1 := step (Run i) w in
  (exists msg,
      trace w1
      = trace w ++ [AcceptWaveformCall b;
                    Log ERROR (Msg (u "Error processing audio: " ++ msg))])
  /\ result_queue (self w1) = result_queue (self w)
  /\ threads w1 !! i = Some (process_audio_thread AtWhile).
Proof.
  intros Hi Ha Hr Hbad. cbv zeta.
  assert (Hlt : (i < length (threads w))%nat) by (eapply lookup_lt_Some; eauto).
  rewrite (step_run_process_audio i (Got b) w Hi).
  unfold process_audio_step, recognize, recognizer_AcceptWaveform,
    recognizer_Result. unfold_prog.
  rewrite Ha. simpl. rewrite Hr. simpl.
  destruct (py_get result (u "text") (JStr [])) as [v|e] eqn:Hg; simpl.
  - destruct v as [| | | |t| |]; simpl;
      try (split_and!; [eexists; rewrite <- app_assoc; reflexivity | auto
                       | apply list_lookup_insert_eq; exact Hlt]).
    exfalso. exact (Hbad t eq_refl).
  - unfold py_get in Hg.
    destruct result; try discriminate; injection Hg as <-; simpl;
      (split_and!; [eexists; rewrite <- app_assoc; reflexivity | auto
                   | apply list_lookup_insert_eq; exact Hlt]).
Qed.

(** X4. When [AcceptWaveform] reports no boundary, the worker asks for no
    result: the recognizer is left as that call left it, nothing is put
    and nothing is logged. *)
Theorem no_boundary_no_result i b r1 w :
  threads w !! i = Some (process_audio_thread (Got b)) ->
  AcceptWaveform (recognizer (self w)) b = (r1, Ok false) ->
  let w1 := step (Run i) w in
  trace w1 = trace w ++ [AcceptWaveformCall b]
  /\ recognizer (self w1) = r1
  /\ result_queue (self w1) = result_queue (self w)
  /\ threads w1 !! i = Some (process_audio_thread AtWhile).
Proof.
  intros Hi Ha. cbv zeta.
  assert (Hlt : (i < length (threads w))%nat) by (eapply lookup_lt_Some; eauto).
  rewrite (step_run_process_audio i (Got b) w Hi).
  unfold process_audio_step, recognize, recognizer_AcceptWaveform.
  unfold_prog. rewrite Ha. simpl.
  split_and!; auto. apply list_lookup_insert_eq. exact Hlt.
Qed.

(** A worker step never adds or removes a thread. *)
Lemma thread_step_threads th w : threads (fst (thread_step th w)) = threads w.
Proof.
  destruct th as [p|p]; simpl.
  - pose proof (process_audio_step_spec p w) as Hs. cbv zeta in Hs.
    destruct (process_audio_step p w); simpl in *. tauto.
  - pose proof (output_processor_step_spec p w) as Hs. cbv zeta in Hs.
    destruct (output_processor_step p w); simpl in *. tauto.
Qed.

(** An action leaves alone every thread it does not run. *)
Lemma step_other_thread a w j th :
  threads w !! j = Some th ->
  is_Run j a = false ->
  threads (step a w) !! j = Some th.
Proof.
  intros Hj Ha. destruct a as [| |indata frames time status|i]; unfold step.
  - unfold exec. rewrite start_spec. simpl.
    apply lookup_app_l_Some. exact Hj.
  - unfold exec. rewrite stop_spec. exact Hj.
  - destruct (stream (self w)) as [s|]; [|exact Hj].
    destruct (stream_callback s).
    destruct (audio_callback_frame w indata frames time status)
      as (_ & _ & _ & _ & _ & _ & _ & ->). exact Hj.
  - destruct (threads w !! i) as [th'|] eqn:Hi; [|exact Hj].
    pose proof (thread_step_threads th' w) as Ht.
    destruct (thread_step th' w) as [w' th'']; simpl in *. rewrite Ht.
    rewrite list_lookup_insert_ne; [exact Hj|].
    intros ->. rewrite Nat.eqb_refl in Ha. discriminate.
Qed.

(** A worker that returned or died is never run again: [start] launches
    new workers and leaves the old ones as they are. *)
Lemma finished_thread_stays sched : forall w i th,
  threads w !! i = Some th ->
  finished th = true ->
  threads (run sched w) !! i = Some th.
Proof.
  induction sched as [|a sched IH]; intros w i th Hi Hf; [exact Hi|].
  rewrite run_cons. apply IH; [|exact Hf].
  destruct (is_Run i a) eqn:Ha; [|apply step_other_thread; auto].
  destruct a as [| | |j]; try discriminate. simpl in Ha.
  apply Nat.eqb_eq in Ha. subst j. simpl. rewrite Hi.
  assert (Hlt : (i < length (threads w))%nat) by (eapply lookup_lt_Some; eauto).
  destruct th as [[]|[]]; try discriminate; simpl;
    apply list_lookup_insert_eq; exact Hlt.
Qed.

(** X5. A callback that raises an exception outside [Exception] (for
    instance [SystemExit], by calling [sys.exit()]) ends the dispatch
    worker: nothing is logged, the flag stays as it is, and whatever
    happens afterwards, a further [start] included, that worker never
    runs again. *)
Theorem callback_exit_ends_dispatch_worker i t c c' e w :
  threads w !! i = Some (output_processor_thread (Got t)) ->
  callback (self w) = user_callback c ->
  call c t = (c', Raise e) ->
  is_Exception e = false ->
  let w1 := step (Run i) w in
  trace w1 = trace w ++ [CallbackCall t]
  /\ running (self w1) = running (self w)
  /\ result_queue (self w1) = result_queue (self w)
  /\ forall sched,
       threads (run sched w1) !! i = Some (output_processor_thread (Died e)).
Proof.
  intros Hi Hcb Hcall He. cbv zeta.
  assert (Hlt : (i < length (threads w))%nat) by (eapply lookup_lt_Some; eauto).
  rewrite (step_run_output_processor i (Got t) w Hi).
  unfold output_processor_step, call_callback. unfold_prog.
  rewrite Hcb. simpl. rewrite Hcall. simpl.
  unfold except_output_processor. destruct e; try discriminate; simpl;
    (split_and!; auto; intros sched; apply finished_thread_stays; auto;
     simpl; apply list_lookup_insert_eq; exact Hlt).
Qed.

(** X6. The same on the recognition side: when [AcceptWaveform] raises an
    exception outside [Exception], the recognition worker ends without a
    log record; the flag and the queued blocks stay, and the worker never
    runs again. *)
Theorem recognizer_exit_ends_recognition_worker i b r1 e w :
  threads w !! i = Some (process_audio_thread (Got b)) ->
  AcceptWaveform (recognizer (self w)) b = (r1, Raise e) ->
  is_Exception e = false ->
  let w1 := step (Run i) w in
  trace w1 = trace w ++ [AcceptWaveformCall b]
  /\ running (self w1) = running (self w)
  /\ audio_queue (self w1) = audio_queue (self w)
  /\ forall sched,
       threads (run sched w1) !! i = Some (process_audio_thread (Died e)).
Proof.
  intros Hi Ha He. cbv zeta.
  assert (Hlt : (i < length (threads w))%nat) by (eapply lookup_lt_Some; eauto).
  rewrite (step_run_process_audio i (Got b) w Hi).
  unfold process_audio_step, recognize, recognizer_AcceptWaveform.
  unfold_prog. rewrite Ha. simpl.
  unfold except_process_audio. destruct e; try discriminate; simpl;
    (split_and!; auto; intros sched; apply finished_thread_stays; auto;
     simpl; apply list_lookup_insert_eq; exact Hlt).
Qed.

(** X7. [queue.Empty] is the signal of a poll that timed out, and the
    handler for it comes first: when the callback itself raises
    [queue.Empty], the dispatch worker goes round its loop without
    logging anything. *)
Theorem empty_from_callback_is_not_logged i t c c' w :
  threads w !! i = Some (output_processor_thread (Got t)) ->
  callback (self w) = user_callback c ->
  call c t = (c', Raise Empty) ->
  let w1 := step (Run i) w in
  trace w1 = trace w ++ [CallbackCall t]
  /\ threads w1 !! i = Some (output_processor_thread AtWhile)
  /\ result_queue (self w1) = result_queue (self w).
Proof.
  intros Hi Hcb Hcall. cbv zeta.
  assert (Hlt : (i < length (threads w))%nat) by (eapply lookup_lt_Some; eauto).
  rewrite (step_run_output_processor i (Got t) w Hi).
  unfold output_processor_step, call_callback. unfold_prog.
  rewrite Hcb. simpl. rewrite Hcall. simpl.
  split_and!; auto. apply list_lookup_insert_eq. exact Hlt.
Qed.

Lemma runs_of_cons i a sched :
  runs_of i (a :: sched)
  = if is_Run i a then S (runs_of i sched) else runs_of i sched.
Proof.
  unfold runs_of. rewrite filter_cons.
  destruct (is_Run i a); simpl; reflexivity.
Qed.

(** With the flag false, each step of a worker brings it nearer to the
    end of its loop, and leaves the flag false. *)
Lemma thread_step_towards_exit th w :
  running (self w) = false ->
  (steps_to_exit (snd (thread_step th w)) <= steps_to_exit th - 1)%nat
  /\ running (self (fst (thread_step th w))) = false.
Proof.
  intros Hr. destruct th as [p|p]; simpl.
  - pose proof (process_audio_step_spec p w) as Hs. cbv zeta in Hs.
    destruct Hs as (_ & Hrun & _). rewrite Hr in Hrun.
    destruct (process_audio_step p w) as [w' p'] eqn:Hstep; simpl in *.
    split; [|exact Hrun].
    destruct p as [| |b| |e]; simpl in Hstep.
    + rewrite Hr in Hstep. injection Hstep as <- <-. simpl. lia.
    + unfold audio_queue_get in Hstep. revert Hstep. unfold_prog.
      destruct (audio_queue (self w)); simpl; intros Hstep;
        injection Hstep as <- <-; simpl; lia.
    + destruct (recognize b w) as [w1 [[]|e]].
      * injection Hstep as <- <-. simpl. lia.
      * unfold except_process_audio in Hstep.
        destruct e; simpl in Hstep; injection Hstep as <- <-; simpl; lia.
    + injection Hstep as <- <-. simpl. lia.
    + injection Hstep as <- <-. simpl. lia.
  - pose proof (output_processor_step_spec p w) as Hs. cbv zeta in Hs.
    destruct Hs as (_ & Hrun & _). rewrite Hr in Hrun.
    destruct (output_processor_step p w) as [w' p'] eqn:Hstep; simpl in *.
    split; [|exact Hrun].
    destruct p as [| |t| |e]; simpl in Hstep.
    + rewrite Hr in Hstep. injection Hstep as <- <-. simpl. lia.
    + unfold result_queue_get in Hstep. revert Hstep. unfold_prog.
      destruct (result_queue (self w)); simpl; intros Hstep;
        injection Hstep as <- <-; simpl; lia.
    + destruct (call_callback t w) as [w1 [[]|e]].
      * injection Hstep as <- <-. simpl. lia.
      * unfold except_output_processor in Hstep.
        destruct e; simpl in Hstep; injection Hstep as <- <-; simpl; lia.
    + injection Hstep as <- <-. simpl. lia.
    + injection Hstep as <- <-. simpl. lia.
Qed.

(** Nothing but [start] sets the flag. *)
Lemma step_keeps_flag_false a w :
  a <> CallStart ->
  running (self w) = false ->
  running (self (step a w)) = false.
Proof.
  intros Ha Hr. destruct a as [| |indata frames time status|i];
    [congruence| | |]; unfold step.
  - unfold exec. rewrite stop_spec. reflexivity.
  - destruct (stream (self w)) as [s|]; [|exact Hr].
    destruct (stream_callback s).
    destruct (audio_callback_frame w indata frames time status)
      as (_ & _ & _ & _ & -> & _). exact Hr.
  - destruct (threads w !! i) as [th|]; [|exact Hr].
    destruct (thread_step_towards_exit th w Hr) as (_ & Hrun).
    destruct (thread_step th w) as [w' th']; simpl in *. exact Hrun.
Qed.

Lemma run_towards_exit sched : forall w i th,
  running (self w) = false ->
  CallStart ∉ sched ->
  threads w !! i = Some th ->
  exists th',
    threads (run sched w) !! i = Some th'
    /\ (steps_to_exit th' <= steps_to_exit th - runs_of i sched)%nat.
Proof.
  induction sched as [|a sched IH]; intros w i th Hr Hs Hi.
  - exists th. split; [exact Hi|]. unfold runs_of. simpl. lia.
  - apply not_elem_of_cons in Hs as (Ha & Hs).
    assert (Ha' : a <> CallStart) by congruence.
    pose proof (step_keeps_flag_false a w Ha' Hr) as Hr'.
    rewrite run_cons, runs_of_cons.
    destruct (is_Run i a) eqn:Hrun.
    + destruct a as [| | |j]; try discriminate. simpl in Hrun.
      apply Nat.eqb_eq in Hrun. subst j.
      assert (Hlt : (i < length (threads w))%nat)
        by (eapply lookup_lt_Some; eauto).
      destruct (thread_step_towards_exit th w Hr) as (Hm & _).
      pose proof (thread_step_threads th w) as Ht.
      assert (Hi' : threads (step (Run i) w) !! i
                    = Some (snd (thread_step th w))).
      { unfold step. rewrite Hi.
        destruct (thread_step th w) as [w' th1]; simpl in *.
        rewrite Ht. apply list_lookup_insert_eq. exact Hlt. }
      destruct (IH _ i _ Hr' Hs Hi') as (th' & Hl & Hm').
      exists th'. split; [exact Hl|]. lia.
    + pose proof (step_other_thread a w i th Hi Hrun) as Hi'.
      destruct (IH _ i _ Hr' Hs Hi') as (th' & Hl & Hm').
      exists th'. split; [exact Hl | exact Hm'].
Qed.

(** X8. Shutdown is bounded: once the flag is false and as long as
    [start] is not called again, a worker leaves its loop after at most
    three steps of its own, wherever it was (waiting in [get], holding an
    item, or at the loop test), whatever the device and the other threads
    do in between. *)
Theorem worker_exits_within_three_steps sched w i th :
  running (self w) = false ->
  CallStart ∉ sched ->
  threads w !! i = Some th ->
  (3 <= runs_of i sched)%nat ->
  exists th', threads (run sched w) !! i = Some th' /\ finished th' = true.
Proof.
  intros Hr Hs Hi Hn.
  destruct (run_towards_exit sched w i th Hr Hs Hi) as (th' & Hl & Hm).
  exists th'. split; [exact Hl|].
  assert (steps_to_exit th <= 3)%nat by (destruct th as [[]|[]]; simpl; lia).
  assert (H0 : steps_to_exit th' = 0%nat) by lia.
  destruct th' as [[]|[]]; simpl in *; auto; discriminate.
Qed.

(** X9. The constructor never lets an [Exception] out.  When it raises,
    the exception is outside [Exception]: either the [SystemExit(1)] it
    raises itself after printing the two lines about the model, or an
    exception of that kind raised by the engine, passed on with nothing
    printed. *)
Theorem constructor_never_raises_an_Exception
    path rate (cb : option C) out out' e :
  __init__ path rate cb out = (out', Raise e) ->
  is_Exception e = false
  /\ ((e = SystemExit 1
       /\ exists msg,
            out' = out
                   ++ [Print (u "Error loading model: " ++ msg);
                       Print (u "Please ensure you have downloaded the Vosk model.")])
      \/ out' = out).
Proof.
  unfold __init__. intros H.
  assert (Hf : forall e0,
    (if is_Exception e0
     then (out ++ [Print (u "Error loading model: " ++ exn_str e0);
                   Print (u "Please ensure you have downloaded the Vosk model.")],
           Raise (SystemExit 1))
     else (out, Raise e0)) = (out', @Raise W e) ->
    is_Exception e = false
    /\ ((e = SystemExit 1
         /\ exists msg,
              out' = out
                     ++ [Print (u "Error loading model: " ++ msg);
                         Print (u "Please ensure you have downloaded the Vosk model.")])
        \/ out' = out)).
  { intros e0 H0. destruct (is_Exception e0) eqn:He0.
    - injection H0 as <- <-. split; [reflexivity|]. left. split; eauto.
    - injection H0 as <- <-. split; [exact He0|]. right. reflexivity. }
  destruct (Model path) as [m|e0]; [|exact (Hf e0 H)].
  destruct (KaldiRecognizer m rate) as [r|e0]; [|exact (Hf e0 H)].
  destruct (SetWords r true) as [r' [[]|e0]]; [discriminate|exact (Hf e0 H)].
Qed.

(** X10. Whatever the model path, the sample rate and what happens in
    the background, and whether the constructor returns or raises, the
    [finally] block of [main] ends the process with exit status 0. *)
Theorem main_always_exits_zero path rate background :
  snd (main path rate background) = 0.
Proof.
  unfold main.
  destruct (__init__ path rate None _) as [out' [stt|e]]; simpl;
    [reflexivity|].
  destruct e; reflexivity.
Qed.

(** A worker step makes no call on the device and keeps the stream. *)
Lemma thread_step_device th w :
  device_calls (trace (fst (thread_step th w))) = device_calls (trace w)
  /\ stream (self (fst (thread_step th w))) = stream (self w).
Proof.
  destruct th as [p|p]; simpl.
  - pose proof (process_audio_step_spec p w) as Hs. cbv zeta in Hs.
    destruct (process_audio_step p w); simpl in *. tauto.
  - pose proof (output_processor_step_spec p w) as Hs. cbv zeta in Hs.
    destruct (output_processor_step p w); simpl in *. tauto.
Qed.

Lemma step_background_device a w :
  in_background a = true ->
  device_calls (trace (step a w)) = device_calls (trace w)
  /\ stream (self (step a w)) = stream (self w).
Proof.
  intros Ha. destruct a as [| |indata frames time status|i];
    try discriminate; unfold step.
  - destruct (stream (self w)) as [s|] eqn:Hs; [|rewrite Hs; auto].
    destruct (stream_callback s).
    destruct (audio_callback_frame w indata frames time status)
      as (_ & _ & _ & -> & _ & -> & _). auto.
  - destruct (threads w !! i) as [th|]; [|auto].
    pose proof (thread_step_device th w) as Hd.
    destruct (thread_step th w) as [w' th']; simpl in *. exact Hd.
Qed.

Lemma run_background_device sched : forall w,
  forallb in_background sched = true ->
  device_calls (trace (run sched w)) = device_calls (trace w)
  /\ stream (self (run sched w)) = stream (self w).
Proof.
  induction sched as [|a sched IH]; intros w Hs; [auto|].
  simpl in Hs. apply andb_true_iff in Hs as (Ha & Hs).
  rewrite run_cons.
  destruct (IH (step a w) Hs) as (-> & ->).
  apply step_background_device. exact Ha.
Qed.

(** X11. When the engine loads, [main] opens one stream, starts it, and
    on the interrupt stops and closes that stream, each once and in this
    order; while it waits, neither the device callback nor the workers
    make a call on the device. *)
Theorem main_opens_and_releases_the_device_once
    path rate background m r r' :
  Model path = Ok m ->
  KaldiRecognizer m rate = Ok r ->
  SetWords r true = (r', Ok tt) ->
  forallb in_background background = true ->
  device_calls (fst (main path rate background))
  = [DevOpen {| handle := 0; samplerate := rate; blocksize := 8000;
                dtype := int16; channels := 1;
                stream_callback := audio_callback_handler |};
     DevStart 0; DevStop 0; DevClose 0].
Proof.
  intros Hm Hk Hs Hbg. unfold main, __init__. rewrite Hm, Hk, Hs.
  cbn [fst snd]. unfold exec at 1. rewrite stop_spec. cbn [fst trace].
  destruct (run_background_device background
              (exec start
                 {| self := {| sample_rate := rate; block_size := 8000;
                               running := false; audio_queue := [];
                               result_queue := []; model := m;
                               recognizer := r';
                               callback := @default_callback C;
                               stream := None |};
                    threads := [];
                    trace := [Print (u "Starting Real-time Speech-to-Text System...");
                              Print (u "Make sure you have downloaded the Vosk model from https://alphacephei.com/vosk/models");
                              Print (u "Press Ctrl+C to exit")] |}) Hbg)
    as (Hd & Hst).
  unfold device_calls in *. rewrite !filter_app, Hd, Hst.
  unfold exec. rewrite start_spec. reflexivity.
Qed.

Lemma printed_app tr1 tr2 : printed (tr1 ++ tr2) = printed tr1 ++ printed tr2.
Proof. apply omap_app. Qed.

(** The device callback touches neither the recognizer nor the callback. *)
Lemma audio_callback_owners w indata frames time status :
  recognizer (self (exec (_audio_callback indata frames time status) w))
  = recognizer (self w)
  /\ callback (self (exec (_audio_callback indata frames time status) w))
     = callback (self w)
  /\ printed (trace (exec (_audio_callback indata frames time status) w))
     = printed (trace w).
Proof.
  unfold _audio_callback. unfold_prog.
  destruct (flags_bool status), (running (self w)) eqn:Hr; simpl;
    rewrite ?Hr; simpl; rewrite ?printed_app; simpl; rewrite ?app_nil_r;
    auto.
Qed.

(** A step of the recognition loop prints nothing and keeps the
    callback. *)
Lemma process_audio_step_quiet p w :
  printed (trace (fst (process_audio_step p w))) = printed (trace w)
  /\ callback (self (fst (process_audio_step p w))) = callback (self w).
Proof.
  destruct p as [| |b| |e]; simpl.
  - destruct (running (self w)); auto.
  - unfold audio_queue_get. unfold_prog.
    destruct (audio_queue (self w)); simpl; auto.
  - destruct (recognize_frame b w) as (puts & Htr & _ & _ & _ & _ & _ & Hcb & _).
    unfold exec in *.
    assert (Hp : printed (trace (fst (recognize b w))) = printed (trace w)).
    { rewrite Htr, printed_app. simpl.
      rewrite <- (app_nil_r (printed (trace w))) at 2. f_equal.
      clear. induction puts; simpl; auto. }
    destruct (recognize b w) as [w1 [[]|e]]; simpl in *; [auto|].
    unfold except_process_audio.
    destruct e; simpl; rewrite ?printed_app; simpl; rewrite ?app_nil_r; auto.
  - auto.
  - auto.
Qed.




Lemma output_processor_step_recognizer p w :
  recognizer (self (fst (output_processor_step p w))) = recognizer (self w).
Proof.
  destruct p as [| |t| |e]; simpl.
  - destruct (running (self w)); auto.
  - unfold result_queue_get. unfold_prog.
    destruct (result_queue (self w)); simpl; auto.
  - destruct (call_callback_frame t w) as (_ & _ & _ & _ & _ & _ & _ & Hr & _).
    unfold exec in Hr.
    destruct (call_callback t w) as [w1 [[]|e]]; simpl in *; [exact Hr|].
    destruct (except_output_processor_frame e w1) as (_ & _ & _ & -> & _).
    exact Hr.
  - auto.
  - auto.
Qed.

(** X13. The recognizer has one owner: the only action that changes it
    or calls [AcceptWaveform] is a recognition worker running the body of
    its loop on a block.  [start], [stop], the device callback, the
    dispatch worker and the other steps of the recognition loop leave it
    as it is. *)
Theorem only_recognition_touches_the_recognizer a w :
  feeds_recognizer a w = false ->
  recognizer (self (step a w)) = recognizer (self w)
  /\ accepted (trace (step a w)) = accepted (trace w).
Proof.
  intros Ha. destruct a as [| |indata frames time status|i]; unfold step.
  - unfold exec. rewrite start_spec. simpl. rewrite accepted_app. simpl.
    rewrite app_nil_r. auto.
  - unfold exec. rewrite stop_spec. simpl. rewrite !accepted_app.
    destruct (stream (self w)); simpl; rewrite !app_nil_r; auto.
  - destruct (stream (self w)) as [s|]; [|auto].
    destruct (stream_callback s).
    destruct (audio_callback_owners w indata frames time status) as (-> & _).
    destruct (audio_callback_frame w indata frames time status)
      as (_ & _ & -> & _).
    rewrite !accepted_app.
    destruct (flags_bool status), (running (self w)); simpl;
      rewrite !app_nil_r; auto.
  - simpl in Ha. destruct (threads w !! i) as [th|] eqn:Hi; [|auto].
    unfold thread_step. destruct th as [p|p].
    + destruct p as [| |b| |e]; try discriminate; simpl.
      * destruct (running (self w)); auto.
      * unfold audio_queue_get. unfold_prog.
        destruct (audio_queue (self w)); simpl; auto.
      * auto.
      * auto.
    + pose proof (output_processor_step_recognizer p w) as Hr.
      pose proof (output_processor_step_spec p w) as Hs. cbv zeta in Hs.
      destruct Hs as (_ & _ & _ & _ & _ & Hacc & _).
      destruct (output_processor_step p w) as [w' p']; simpl in *. auto.
Qed.

(** X14. The callback has one caller: the only action that calls it or
    changes its state is a dispatch worker handing over the text it
    holds. *)
Theorem only_dispatch_touches_the_callback a w :
  invokes_callback a w = false ->
  callback (self (step a w)) = callback (self w)
  /\ dispatched (trace (step a w)) = dispatched (trace w).
Proof.
  intros Ha. destruct a as [| |indata frames time status|i]; unfold step.
  - unfold exec. rewrite start_spec. simpl. rewrite dispatched_app. simpl.
    rewrite app_nil_r. auto.
  - unfold exec. rewrite stop_spec. simpl. rewrite !dispatched_app.
    destruct (stream (self w)); simpl; rewrite !app_nil_r; auto.
  - destruct (stream (self w)) as [s|]; [|auto].
    destruct (stream_callback s).
    destruct (audio_callback_owners w indata frames time status)
      as (_ & -> & _).
    destruct (audio_callback_frame w indata frames time status)
      as (_ & _ & -> & _).
    rewrite !dispatched_app.
    destruct (flags_bool status), (running (self w)); simpl;
      rewrite !app_nil_r; auto.
  - simpl in Ha. destruct (threads w !! i) as [th|] eqn:Hi; [|auto].
    unfold thread_step. destruct th as [p|p].
    + destruct (process_audio_step_quiet p w) as (_ & Hc).
      pose proof (process_audio_step_spec p w) as Hs. cbv zeta in Hs.
      destruct Hs as (_ & _ & _ & _ & Hd & _).
      destruct (process_audio_step p w) as [w' p']; simpl in *. auto.
    + destruct p as [| |t| |e]; try discriminate; simpl.
      * destruct (running (self w)); auto.
      * unfold result_queue_get. unfold_prog.
        destruct (result_queue (self w)); simpl; auto.
      * auto.
      * auto.
Qed.

(** The body of the recognition loop puts at most one text. *)
Lemma recognize_puts_at_most_one b w :
  exists puts,
    (length puts <= 1)%nat
    /\ trace (exec (recognize b) w)
       = trace w ++ AcceptWaveformCall b :: map ResultPut puts.
Proof.
  unfold recognize, recognizer_AcceptWaveform, recognizer_Result.
  unfold_prog.
  destruct (AcceptWaveform (recognizer (self w)) b) as [r1 [[|]|e]]; simpl;
    try (exists (@nil str); simpl; auto; fail).
  destruct (Result r1) as [r2 [result|e]]; simpl;
    try (exists (@nil str); simpl; auto; fail).
  unfold py_get, py_strip, py_getitem.
  destruct result as [| | | | |l|items]; simpl;
    try (exists (@nil str); simpl; auto; fail).
  destruct (dict_lookup (u "text") items) as [v|]; simpl;
    try (exists (@nil str); simpl; auto; fail).
  destruct v as [| | | |t| |]; simpl;
    try (exists (@nil str); simpl; auto; fail).
  destruct (str_bool (strip t)) eqn:Ht; simpl;
    try (exists (@nil str); simpl; auto; fail).
  exists [t]; simpl. rewrite <- app_assoc. auto.
Qed.

Lemma step_results_per_block a w :
  exists n k,
    length (accepted (trace (step a w))) = (length (accepted (trace w)) + n)%nat
    /\ length (produced (trace (step a w)))
       = (length (produced (trace w)) + k)%nat
    /\ (k <= n)%nat.
Proof.
  destruct a as [| |indata frames time status|i]; unfold step.
  - exists 0%nat, 0%nat. unfold exec. rewrite start_spec. simpl.
    rewrite accepted_app, produced_app. simpl. rewrite !app_nil_r. lia.
  - exists 0%nat, 0%nat. unfold exec. rewrite stop_spec. simpl.
    rewrite !accepted_app, !produced_app.
    destruct (stream (self w)); simpl; rewrite !app_nil_r; lia.
  - exists 0%nat, 0%nat. destruct (stream (self w)) as [s|]; [|lia].
    destruct (stream_callback s).
    destruct (audio_callback_frame w indata frames time status)
      as (_ & _ & -> & _).
    rewrite !accepted_app, !produced_app.
    destruct (flags_bool status), (running (self w)); simpl;
      rewrite !app_nil_r; lia.
  - destruct (threads w !! i) as [th|] eqn:Hi; [|exists 0%nat, 0%nat; lia].
    unfold thread_step. destruct th as [p|p].
    + destruct p as [| |b| |e]; simpl.
      * exists 0%nat, 0%nat. destruct (running (self w)); simpl; lia.
      * exists 0%nat, 0%nat. unfold audio_queue_get. unfold_prog.
        destruct (audio_queue (self w)); simpl; lia.
      * destruct (recognize_puts_at_most_one b w) as (puts & Hlen & Htr).
        unfold exec in Htr. exists 1%nat, (length puts).
        assert (Hc : accepted (trace (fst (recognize b w)))
                     = accepted (trace w) ++ [b]
                /\ produced (trace (fst (recognize b w)))
                   = produced (trace w) ++ puts).
        { rewrite Htr.
          change (AcceptWaveformCall b :: map ResultPut puts)
            with ([AcceptWaveformCall b] ++ map ResultPut puts).
          rewrite app_assoc.
          destruct (puts_projections (trace w ++ [AcceptWaveformCall b]) puts)
            as (_ & -> & _ & _ & ->).
          rewrite accepted_app, produced_app. simpl.
          rewrite !app_nil_r. auto. }
        destruct Hc as (Hacc & Hpro).
        destruct (recognize b w) as [w1 [[]|e]]; simpl in *.
        -- rewrite Hacc, Hpro, !length_app. simpl. lia.
        -- destruct (except_process_audio_frame e w1)
             as (out & Hq & Htr' & _).
           destruct (quiet_projections (trace w1) out Hq)
             as (_ & Q2 & Q3 & _).
           destruct (except_process_audio e w1) as [w2 p2]; simpl in *.
           rewrite Htr', Q2, Q3, Hacc, Hpro, !length_app. simpl. lia.
      * exists 0%nat, 0%nat. simpl. lia.
      * exists 0%nat, 0%nat. simpl. lia.
    + exists 0%nat, 0%nat.
      pose proof (output_processor_step_spec p w) as Hs. cbv zeta in Hs.
      destruct Hs as (_ & _ & _ & _ & _ & Hacc & Hpro & _).
      destruct (output_processor_step p w) as [w' p']; simpl in *.
      rewrite Hacc, Hpro. lia.
Qed.

(** X15. Each block fed to the recognizer yields at most one text: at
    every moment, however often the system was started and stopped, no
    more texts were put on the result queue than blocks were fed to
    [AcceptWaveform]. *)
Theorem at_most_one_result_per_block path rate (cb : option C) w0 sched :
  __init__ path rate cb [] = ([], Ok w0) ->
  (length (produced (trace (run sched w0)))
   <= length (accepted (trace (run sched w0))))%nat.
Proof.
  intros Hinit. apply init_ok in Hinit as (_ & Htr & _).
  assert (H0 : (length (produced (trace w0))
                <= length (accepted (trace w0)))%nat)
    by (rewrite Htr; simpl; lia).
  clear Htr. revert w0 H0.
  induction sched as [|a sched IH]; intros w0 H0; [exact H0|].
  rewrite run_cons. apply IH.
  destruct (step_results_per_block a w0) as (n & k & -> & -> & Hk). lia.
Qed.

(** X16. [start] does not make new queues.  After [stop] and a new
    [start] the blocks and texts that were left are still queued, the old
    threads are still there, and a new pair of workers is appended; with
    a recognizer whose failures are all [Exception]s, the new recognition
    worker then feeds every leftover block to the recognizer, in order. *)
Theorem restart_processes_the_leftover_blocks w :
  (forall r x, caught (snd (AcceptWaveform r x))) ->
  (forall r, caught (snd (Result r))) ->
  let w1 := run [CallStop; CallStart] w in
  let n := length (threads w) in
  let w2 := run (repeat (Run n) (3 * length (audio_queue (self w)))) w1 in
  audio_queue (self w1) = audio_queue (self w)
  /\ result_queue (self w1) = result_queue (self w)
  /\ threads w1
     = threads w ++ [process_audio_thread AtWhile;
                     output_processor_thread AtWhile]
  /\ accepted (trace w2) = accepted (trace w) ++ audio_queue (self w).
Proof.
  intros HA HR w1 n w2.
  assert (E : w1 = exec start (exec stop w)) by reflexivity.
  unfold exec in E. rewrite stop_spec in E. cbn [fst] in E.
  rewrite start_spec in E. cbn [fst self threads trace] in E.
  assert (Hq1 : audio_queue (self w1) = audio_queue (self w))
    by (rewrite E; reflexivity).
  assert (Hr1 : running (self w1) = true) by (rewrite E; reflexivity).
  assert (Ht1 : threads w1
                = threads w ++ [process_audio_thread AtWhile;
                                output_processor_thread AtWhile])
    by (rewrite E; reflexivity).
  assert (Hn : threads w1 !! n = Some (process_audio_thread AtWhile)).
  { rewrite Ht1. apply list_lookup_middle. reflexivity. }
  assert (Hacc : accepted (trace w1) = accepted (trace w)).
  { rewrite E. cbn [trace]. rewrite !accepted_app.
    destruct (stream (self w)); simpl; rewrite !app_nil_r; reflexivity. }
  destruct (process_audio_drains n (audio_queue (self w)) w1 HA HR Hr1 Hn Hq1)
    as (_ & _ & _ & H4).
  fold w2 in H4. split_and!; auto.
  - rewrite E. reflexivity.
  - rewrite H4, Hacc. reflexivity.
Qed.

Lemma closes_app h tr1 tr2 :
  closes h (tr1 ++ tr2) = (closes h tr1 + closes h tr2)%nat.
Proof. unfold closes. rewrite filter_app, length_app. reflexivity. Qed.

Lemma closes_device_calls h tr : closes h (device_calls tr) = closes h tr.
Proof.
  unfold closes, device_calls. induction tr as [|e tr IH]; [reflexivity|].
  rewrite !filter_cons. destruct e; simpl; rewrite ?filter_cons; simpl;
    try exact IH.
  destruct (bool_decide (h0 = h)); simpl; rewrite IH; reflexivity.
Qed.

Lemma opens_device_calls tr :
  length (filter is_DevOpen (device_calls tr)) = length (filter is_DevOpen tr).
Proof.
  unfold device_calls. induction tr as [|e tr IH]; [reflexivity|].
  rewrite !filter_cons. destruct e; simpl; rewrite ?filter_cons; simpl;
    rewrite ?IH; reflexivity.
Qed.

Lemma step_out_of_reach h tr0 a w :
  out_of_reach h tr0 w -> out_of_reach h tr0 (step a w).
Proof.
  intros (Hn & (s & Hs & Hh) & Hc).
  destruct (in_background a) eqn:Ha.
  - destruct (step_background_device a w Ha) as (Hd & Hst).
    unfold out_of_reach, next_handle.
    rewrite <- opens_device_calls, <- closes_device_calls, Hd,
      opens_device_calls, closes_device_calls, Hst.
    split_and!; eauto.
  - destruct a; try discriminate; unfold step, exec.
    + rewrite start_spec. unfold out_of_reach, next_handle in *.
      cbn [fst self trace]. rewrite filter_app, length_app, closes_app.
      simpl. split_and!; [lia | eexists; split; [reflexivity|exact Hn] |].
      rewrite <- Hc. unfold closes. simpl. lia.
    + rewrite stop_spec. unfold out_of_reach, next_handle in *.
      cbn [fst self trace]. rewrite Hs. simpl.
      rewrite !filter_app, !length_app, !closes_app. simpl.
      split_and!; [lia | eauto |].
      rewrite <- Hc. unfold closes at 2. simpl. rewrite !filter_cons. simpl.
      rewrite bool_decide_eq_false_2 by lia. simpl. lia.
Qed.

Lemma start_numbers_the_stream w :
  next_handle (exec start w) = S (next_handle w)
  /\ (exists s, stream (self (exec start w)) = Some s
                /\ handle s = next_handle w)
  /\ forall h, closes h (trace (exec start w)) = closes h (trace w).
Proof.
  unfold exec. rewrite start_spec. unfold next_handle.
  cbn [fst self trace]. split_and!.
  - rewrite filter_app, length_app. simpl. lia.
  - eexists. split; reflexivity.
  - intros h. rewrite closes_app. unfold closes at 2. simpl. lia.
Qed.

(** X17. A second [start] without a [stop] in between loses the first
    stream: [self.stream] now holds the second one, and whatever happens
    afterwards, any number of [stop]s and restarts included, the stream
    that the first [start] opened is never closed. *)
Theorem second_start_leaks_the_first_stream w sched :
  let h := next_handle w in
  let w2 := exec start (exec start w) in
  (exists s, stream (self (exec start w)) = Some s /\ handle s = h)
  /\ closes h (trace (run sched w2)) = closes h (trace w).
Proof.
  cbv zeta.
  destruct (start_numbers_the_stream w) as (Hn1 & Hs1 & Hc1).
  destruct (start_numbers_the_stream (exec start w)) as (Hn2 & (s & Hs2 & Hh2) & Hc2).
  split; [exact Hs1|].
  assert (H2 : out_of_reach (next_handle w) (trace w)
                 (exec start (exec start w))).
  { unfold out_of_reach. rewrite Hn2, Hn1, Hc2, Hc1. split_and!; auto.
    exists s. split; [exact Hs2|]. lia. }
  revert H2. generalize (exec start (exec start w)).
  induction sched as [|a sched IH]; intros w2 H2.
  - destruct H2 as (_ & _ & Hc). exact Hc.
  - rewrite run_cons. apply IH. apply step_out_of_reach. exact H2.
Qed.

(** A run of deliveries while the system runs: every block is appended
    to the audio queue and nothing else moves. *)
Lemma run_deliveries ds : forall w s,
  running (self w) = true ->
  stream (self w) = Some s ->
  let w' := run (map deliver ds) w in
  audio_queue (self w')
  = audio_queue (self w) ++ map (fun d => fst (fst (fst d))) ds
  /\ threads w' = threads w
  /\ running (self w') = true
  /\ result_queue (self w') = result_queue (self w)
  /\ accepted (trace w') = accepted (trace w).
Proof.
  induction ds as [|[[[indata frames] time] status] ds IH]; intros w s Hr Hs;
    cbv zeta.
  - simpl. rewrite app_nil_r. auto.
  - change (map deliver ((indata, frames, time, status) :: ds))
      with (Deliver indata frames time status :: map deliver ds).
    rewrite run_cons.
    assert (E : step (Deliver indata frames time status) w
                = exec (_audio_callback indata frames time status) w).
    { unfold step. rewrite Hs. destruct (stream_callback s). reflexivity. }
    rewrite E.
    destruct (audio_callback_frame w indata frames time status)
      as (_ & Hq & Htr & _ & Hrun & Hst & Hrq & Hth).
    rewrite Hr in Hq, Htr.
    destruct (IH (exec (_audio_callback indata frames time status) w) s)
      as (I1 & I2 & I3 & I4 & I5); [congruence | congruence |].
    rewrite I1, I2, I3, I4, I5, Hq, Hth, Hrq, Htr, !accepted_app.
    simpl. rewrite <- app_assoc.
    destruct (flags_bool status); simpl; rewrite !app_nil_r; auto.
Qed.

(** Steps of one thread leave every other thread where it is. *)
Lemma run_steps_other_thread n : forall w i j th,
  i <> j ->
  threads w !! j = Some th ->
  threads (run (repeat (Run i) n) w) !! j = Some th.
Proof.
  induction n as [|n IH]; intros w i j th Hij Hj; [exact Hj|].
  simpl repeat. rewrite run_cons. apply IH; [exact Hij|].
  apply step_other_thread; [exact Hj|]. simpl.
  apply Nat.eqb_neq. congruence.
Qed.

(** Steps of a dispatch worker feed nothing to the recognizer and leave
    the audio queue alone. *)
Lemma run_dispatch_steps_keep_audio n : forall w i p,
  threads w !! i = Some (output_processor_thread p) ->
  accepted (trace (run (repeat (Run i) n) w)) = accepted (trace w)
  /\ audio_queue (self (run (repeat (Run i) n) w)) = audio_queue (self w).
Proof.
  induction n as [|n IH]; intros w i p Hi; [auto|].
  simpl repeat. rewrite run_cons.
  assert (Hlt : (i < length (threads w))%nat) by (eapply lookup_lt_Some; eauto).
  pose proof (output_processor_step_spec p w) as Hs. cbv zeta in Hs.
  destruct Hs as (Ht & _ & _ & Haq & _ & Hacc & _).
  assert (Hi' : threads (step (Run i) w) !! i
                = Some (output_processor_thread
                          (snd (output_processor_step p w)))).
  { rewrite (step_run_output_processor i p w Hi). cbn [threads].
    rewrite Ht. apply list_lookup_insert_eq. exact Hlt. }
  destruct (IH _ i _ Hi') as (-> & ->).
  rewrite (step_run_output_processor i p w Hi). cbn [self trace]. auto.
Qed.

(** X18. From the constructor to the callback: with an engine and a
    callback whose failures are all [Exception]s, after [start], any
    number of deliveries, the recognition worker running until the audio
    queue is empty and then the dispatch worker running until the result
    queue is empty, every delivered block was fed to [AcceptWaveform], in
    the order of delivery, every text that was put on the result queue
    was handed to the callback, in that order, and both queues are
    empty. *)
Theorem pipeline_delivers_everything path rate (cb : option C) w0 ds :
  __init__ path rate cb [] = ([], Ok w0) ->
  (forall r x, caught (snd (AcceptWaveform r x))) ->
  (forall r, caught (snd (Result r))) ->
  (forall k x, caught (snd (call k x))) ->
  let bs := map (fun d => fst (fst (fst d))) ds in
  let w1 := run (CallStart :: map deliver ds) w0 in
  let w2 := run (repeat (Run 0%nat) (3 * length bs)) w1 in
  let w3 := run (repeat (Run 1%nat) (3 * length (result_queue (self w2)))) w2 in
  accepted (trace w3) = bs
  /\ dispatched (trace w3) = produced (trace w3)
  /\ audio_queue (self w3) = []
  /\ result_queue (self w3) = [].
Proof.
  intros Hinit HA HR HC bs w1 w2 w3.
  apply init_ok in Hinit as (_ & Htr & Hth & Haq & Hrq & _).
  (* after start *)
  set (ws := exec start w0).
  assert (Es : threads ws = [process_audio_thread AtWhile;
                             output_processor_thread AtWhile]
               /\ running (self ws) = true
               /\ audio_queue (self ws) = []
               /\ accepted (trace ws) = []
               /\ (exists s, stream (self ws) = Some s)
               /\ fifo ws).
  { subst ws. unfold exec. rewrite start_spec. cbn [fst self threads trace].
    rewrite Hth, Htr. simpl. split_and!; auto; [eauto|].
    exists AtWhile, AtWhile. simpl. rewrite ?Hth, ?Htr, ?Haq, ?Hrq. simpl.
    auto. }
  destruct Es as (Hths & Hrs & Haqs & Haccs & (s & Hss) & Hfs).
  (* after the deliveries *)
  assert (E1 : w1 = run (map deliver ds) ws) by reflexivity.
  destruct (run_deliveries ds ws s Hrs Hss) as (D1 & D2 & D3 & _ & D5).
  rewrite <- E1 in D1, D2, D3, D5. rewrite Haqs in D1. simpl in D1.
  rewrite Haccs in D5. rewrite Hths in D2.
  (* the recognition worker empties the audio queue *)
  assert (H0 : threads w1 !! 0%nat = Some (process_audio_thread AtWhile))
    by (rewrite D2; reflexivity).
  assert (H1 : threads w1 !! 1%nat = Some (output_processor_thread AtWhile))
    by (rewrite D2; reflexivity).
  destruct (process_audio_drains 0%nat bs w1 HA HR D3 H0 D1)
    as (_ & R2 & R3 & R4).
  fold w2 in R2, R3, R4. rewrite D5 in R4. simpl in R4.
  assert (H1' : threads w2 !! 1%nat = Some (output_processor_thread AtWhile)).
  { apply run_steps_other_thread; [discriminate | exact H1]. }
  (* the dispatch worker empties the result queue *)
  destruct (output_processor_drains 1%nat (result_queue (self w2)) w2
              HC R2 H1' eq_refl) as (O1 & _ & O3 & _).
  fold w3 in O1, O3.
  destruct (run_dispatch_steps_keep_audio
              (3 * length (result_queue (self w2))) w2 1%nat AtWhile H1')
    as (K1 & K2).
  fold w3 in K1, K2.
  (* the queues are first in, first out all along *)
  assert (Hf3 : fifo w3).
  { assert (E3 : w3 = run (map deliver ds
                            ++ repeat (Run 0%nat) (3 * length bs)
                            ++ repeat (Run 1%nat)
                                 (3 * length (result_queue (self w2)))) ws).
    { rewrite !run_app. reflexivity. }
    rewrite E3. apply run_fifo; [|exact Hfs].
    rewrite list_elem_of_In. intros Hin.
    apply in_app_or in Hin as [Hin|Hin].
    - apply in_map_iff in Hin as ([[[? ?] ?] ?] & Hd & _). discriminate Hd.
    - apply in_app_or in Hin as [Hin|Hin];
        apply repeat_spec in Hin; discriminate Hin. }
  destruct Hf3 as (p1 & p2 & Ht3 & _ & Hres).
  rewrite Ht3 in O1. injection O1 as ->. rewrite O3 in Hres.
  simpl in Hres. rewrite app_nil_r in Hres.
  split_and!; [congruence | exact Hres | congruence | exact O3].
Qed.

End Further.

(* ===================================================================== *)
(** ** The further properties at concrete inputs                          *)
(* ===================================================================== *)

(** A text of Unicode white space only is dropped. *)
Lemma whitespace_only_text_is_dropped_witness :
  forallb isspace unicode_blank = true
  /\ result_queue (self (exec (recognize (vosk := plain) (block 1))
                              blank_boundary))
     = result_queue (self blank_boundary)
       ++ (if forallb isspace unicode_blank then [] else [unicode_blank]).
Proof.
  split; [vm_compute; reflexivity|].
  apply (whitespace_only_text_is_dropped
           (vosk := plain) (block 1) blank_boundary
           {| script := [];
              latest := Ok (JDict [(u "text", JStr unicode_blank)]) |}
           {| script := [];
              latest := Ok (JDict [(u "text", JStr unicode_blank)]) |}
           (JDict [(u "text", JStr unicode_blank)]) unicode_blank);
    vm_compute; reflexivity.
Defined.

(** A result with a 'partial' key only. *)
Lemma missing_text_key_is_skipped_witness :
  let w := at_first_block
             (Ok true, Ok (JDict [(u "partial", JStr (u "hel"))])) in
  let w1 := step (vosk := plain) (consumer := scripted_consumer)
                 (Run 0%nat) w in
  trace w1 = trace w ++ [AcceptWaveformCall (block 1)]
  /\ result_queue (self w1) = result_queue (self w)
  /\ threads w1 !! 0%nat = Some (process_audio_thread AtWhile).
Proof.
  apply (missing_text_key_is_skipped
           (vosk := plain) (consumer := scripted_consumer)
           0%nat (block 1)
           {| script := [];
              latest := Ok (JDict [(u "partial", JStr (u "hel"))]) |}
           {| script := [];
              latest := Ok (JDict [(u "partial", JStr (u "hel"))]) |}
           [(u "partial", JStr (u "hel"))]);
    vm_compute; reflexivity.
Defined.

(** A result whose 'text' is a number. *)
Lemma malformed_result_is_logged_and_skipped_witness :
  let w := at_first_block (Ok true, Ok (JDict [(u "text", JInt 5)])) in
  let w1 := step (vosk := plain) (consumer := scripted_consumer)
                 (Run 0%nat) w in
  (exists msg,
      trace w1
      = trace w ++ [AcceptWaveformCall (block 1);
                    Log ERROR (Msg (u "Error processing audio: " ++ msg))])
  /\ result_queue (self w1) = result_queue (self w)
  /\ threads w1 !! 0%nat = Some (process_audio_thread AtWhile).
Proof.
  apply (malformed_result_is_logged_and_skipped
           (vosk := plain) (consumer := scripted_consumer)
           0%nat (block 1)
           {| script := []; latest := Ok (JDict [(u "text", JInt 5)]) |}
           {| script := []; latest := Ok (JDict [(u "text", JInt 5)]) |}
           (JDict [(u "text", JInt 5)]));
    try (vm_compute; reflexivity).
  intros t. vm_compute. discriminate.
Defined.

Lemma no_boundary_no_result_witness :
  let w := at_first_block silent in
  let w1 := step (vosk := plain) (consumer := scripted_consumer)
                 (Run 0%nat) w in
  trace w1 = trace w ++ [AcceptWaveformCall (block 1)]
  /\ recognizer (self w1) = {| script := []; latest := Ok (JDict []) |}
  /\ result_queue (self w1) = result_queue (self w)
  /\ threads w1 !! 0%nat = Some (process_audio_thread AtWhile).
Proof.
  apply (no_boundary_no_result
           (vosk := plain) (consumer := scripted_consumer)
           0%nat (block 1) {| script := []; latest := Ok (JDict []) |});
    vm_compute; reflexivity.
Defined.

(** A callback that calls [sys.exit(0)]. *)
Lemma callback_exit_ends_dispatch_worker_witness :
  let w := at_first_result [Raise (SystemExit 0)] in
  let w1 := step (vosk := plain) (consumer := scripted_consumer)
                 (Run 1%nat) w in
  trace w1 = trace w ++ [CallbackCall (u "one")]
  /\ running (self w1) = running (self w)
  /\ result_queue (self w1) = result_queue (self w)
  /\ forall sched,
       threads (run (vosk := plain) (consumer := scripted_consumer) sched w1)
         !! 1%nat
       = Some (output_processor_thread (Died (SystemExit 0))).
Proof.
  apply (callback_exit_ends_dispatch_worker
           (vosk := plain) (consumer := scripted_consumer)
           1%nat (u "one") [Raise (SystemExit 0)] []);
    vm_compute; reflexivity.
Defined.

(** A recognizer interrupted in [AcceptWaveform]. *)
Lemma recognizer_exit_ends_recognition_worker_witness :
  let w := at_first_block (Raise KeyboardInterrupt, Ok (JDict [])) in
  let w1 := step (vosk := plain) (consumer := scripted_consumer)
                 (Run 0%nat) w in
  trace w1 = trace w ++ [AcceptWaveformCall (block 1)]
  /\ running (self w1) = running (self w)
  /\ audio_queue (self w1) = audio_queue (self w)
  /\ forall sched,
       threads (run (vosk := plain) (consumer := scripted_consumer) sched w1)
         !! 0%nat
       = Some (process_audio_thread (Died KeyboardInterrupt)).
Proof.
  apply (recognizer_exit_ends_recognition_worker
           (vosk := plain) (consumer := scripted_consumer)
           0%nat (block 1) {| script := []; latest := Ok (JDict []) |});
    vm_compute; reflexivity.
Defined.

Lemma empty_from_callback_is_not_logged_witness :
  let w := at_first_result [Raise Empty] in
  let w1 := step (vosk := plain) (consumer := scripted_consumer)
                 (Run 1%nat) w in
  trace w1 = trace w ++ [CallbackCall (u "one")]
  /\ threads w1 !! 1%nat = Some (output_processor_thread AtWhile)
  /\ result_queue (self w1) = result_queue (self w).
Proof.
  apply (empty_from_callback_is_not_logged
           (vosk := plain) (consumer := scripted_consumer)
           1%nat (u "one") [Raise Empty] []);
    vm_compute; reflexivity.
Defined.

(** [stop] comes while the recognition worker holds a block: three of
    its steps later it has returned. *)
Lemma worker_exits_within_three_steps_witness :
  (running (self stopping) = false
   /\ threads stopping !! 0%nat
      = Some (process_audio_thread (Got (block 1)))
   /\ runs_of 0 while_stopping = 3%nat
   /\ threads (run (vosk := plain) (consumer := scripted_consumer)
                   while_stopping stopping) !! 0%nat
      = Some (process_audio_thread Returned))
  /\ exists th',
       threads (run (vosk := plain) (consumer := scripted_consumer)
                    while_stopping stopping) !! 0%nat = Some th'
       /\ finished th' = true.
Proof.
  split; [vm_compute; auto|].
  apply (worker_exits_within_three_steps
           (vosk := plain) (consumer := scripted_consumer)
           while_stopping stopping 0%nat
           (process_audio_thread (Got (block 1)))).
  - vm_compute; reflexivity.
  - unfold while_stopping. not_started.
  - vm_compute; reflexivity.
  - vm_compute. lia.
Defined.

Lemma constructor_never_raises_an_Exception_witness :
  let out' := [Print (u "Error loading model: "
                      ++ u "Failed to create a model");
               Print (u "Please ensure you have downloaded the Vosk model.")] in
  __init__ (vosk := three_blocks) (C := list (outcome unit))
           (u "missing") 16000 None [] = (out', Raise (SystemExit 1))
  /\ is_Exception (SystemExit 1) = false
  /\ ((SystemExit 1 = SystemExit 1
       /\ exists msg,
            out' = []
                   ++ [Print (u "Error loading model: " ++ msg);
                       Print (u "Please ensure you have downloaded the Vosk model.")])
      \/ out' = []).
Proof.
  cbv zeta. split; [vm_compute; reflexivity|].
  apply (constructor_never_raises_an_Exception
           (vosk := three_blocks) (C := list (outcome unit))
           (u "missing") 16000 None []).
  vm_compute; reflexivity.
Defined.

Lemma main_opens_and_releases_the_device_once_witness :
  forallb in_background quiet_background = true
  /\ device_calls (fst (main (vosk := three_blocks)
                             (consumer := scripted_consumer)
                             (u "vosk-model-small-en-us-0.15") 16000
                             quiet_background))
     = [DevOpen {| handle := 0; samplerate := 16000; blocksize := 8000;
                   dtype := int16; channels := 1;
                   stream_callback := audio_callback_handler |};
        DevStart 0; DevStop 0; DevClose 0].
Proof.
  split; [vm_compute; reflexivity|].
  apply (main_opens_and_releases_the_device_once
           (vosk := three_blocks) (consumer := scripted_consumer)
           (u "vosk-model-small-en-us-0.15") 16000 quiet_background tt
           {| script := [silent; says "hello world"; says "  "];
              latest := Ok (JDict []) |}
           {| script := [silent; says "hello world"; says "  "];
              latest := Ok (JDict []) |});
    vm_compute; reflexivity.
Defined.


(** A step of the dispatch worker while the recognition worker holds a
    block. *)
Lemma only_recognition_touches_the_recognizer_witness :
  feeds_recognizer (Run 1%nat) at_block_3 = false
  /\ recognizer (self (step (vosk := faulty_vosk)
                            (consumer := scripted_consumer)
                            (Run 1%nat) at_block_3))
     = recognizer (self at_block_3)
  /\ accepted (trace (step (vosk := faulty_vosk)
                           (consumer := scripted_consumer)
                           (Run 1%nat) at_block_3))
     = accepted (trace at_block_3).
Proof.
  split; [vm_compute; reflexivity|].
  apply (only_recognition_touches_the_recognizer
           (vosk := faulty_vosk) (consumer := scripted_consumer)
           (Run 1%nat) at_block_3).
  vm_compute; reflexivity.
Defined.

(** A step of the recognition worker while the dispatch worker holds a
    text. *)
Lemma only_dispatch_touches_the_callback_witness :
  invokes_callback (Run 0%nat) at_result_1 = false
  /\ callback (self (step (vosk := two_results) (consumer := flaky_consumer)
                          (Run 0%nat) at_result_1))
     = callback (self at_result_1)
  /\ dispatched (trace (step (vosk := two_results)
                             (consumer := flaky_consumer)
                             (Run 0%nat) at_result_1))
     = dispatched (trace at_result_1).
Proof.
  split; [vm_compute; reflexivity|].
  apply (only_dispatch_touches_the_callback
           (vosk := two_results) (consumer := flaky_consumer)
           (Run 0%nat) at_result_1).
  vm_compute; reflexivity.
Defined.

Lemma at_most_one_result_per_block_witness :
  (length (produced (trace (run (vosk := three_blocks)
                                (consumer := scripted_consumer)
                                (CallStart :: five_blocks)
                                three_blocks_fresh)))
   <= length (accepted (trace (run (vosk := three_blocks)
                                   (consumer := scripted_consumer)
                                   (CallStart :: five_blocks)
                                   three_blocks_fresh))))%nat.
Proof.
  apply (at_most_one_result_per_block
           (vosk := three_blocks) (consumer := scripted_consumer)
           (u "vosk-model-small-en-us-0.15") 16000 None three_blocks_fresh
           (CallStart :: five_blocks)).
  vm_compute; reflexivity.
Defined.

(** One block was left when the system stopped; after the restart the
    new recognition worker, thread 2, processes it. *)
Lemma restart_processes_the_leftover_blocks_witness :
  (audio_queue (self faulty_stopped) = [block 2]
   /\ accepted (trace faulty_stopped) = [block 1]
   /\ threads faulty_stopped
      = [process_audio_thread Returned; output_processor_thread Returned])
  /\ let w1 := run (vosk := faulty_vosk) (consumer := scripted_consumer)
                   [CallStop; CallStart] faulty_stopped in
     let n := length (threads faulty_stopped) in
     let w2 := run (vosk := faulty_vosk) (consumer := scripted_consumer)
                   (repeat (Run n)
                           (3 * length (audio_queue (self faulty_stopped))))
                   w1 in
     audio_queue (self w1) = audio_queue (self faulty_stopped)
     /\ result_queue (self w1) = result_queue (self faulty_stopped)
     /\ threads w1
        = threads faulty_stopped ++ [process_audio_thread AtWhile;
                                     output_processor_thread AtWhile]
     /\ accepted (trace w2)
        = accepted (trace faulty_stopped) ++ audio_queue (self faulty_stopped).
Proof.
  split; [vm_compute; auto|].
  apply (restart_processes_the_leftover_blocks
           (vosk := faulty_vosk) (consumer := scripted_consumer)
           faulty_stopped).
  - intros r x. simpl. destruct (r =? 2)%nat; simpl; auto.
  - intros r. simpl. auto.
Defined.

(** Five blocks, of which the third makes the recognizer fail, and a
    callback that fails on the first text. *)
Lemma pipeline_delivers_everything_witness :
  let bs := map (fun d => fst (fst (fst d))) five_deliveries in
  let w1 := run (vosk := faulty_vosk) (consumer := flaky_consumer)
                (CallStart :: map deliver five_deliveries)
                faulty_flaky_fresh in
  let w2 := run (vosk := faulty_vosk) (consumer := flaky_consumer)
                (repeat (Run 0%nat) (3 * length bs)) w1 in
  let w3 := run (vosk := faulty_vosk) (consumer := flaky_consumer)
                (repeat (Run 1%nat) (3 * length (result_queue (self w2))))
                w2 in
  accepted (trace w3) = bs
  /\ dispatched (trace w3) = produced (trace w3)
  /\ audio_queue (self w3) = []
  /\ result_queue (self w3) = [].
Proof.
  apply (pipeline_delivers_everything
           (vosk := faulty_vosk) (consumer := flaky_consumer)
           (u "vosk-model-small-en-us-0.15") 16000 (Some 0%nat)
           faulty_flaky_fresh five_deliveries).
  - vm_compute; reflexivity.
  - intros r x. simpl. destruct (r =? 2)%nat; simpl; auto.
  - intros r. simpl. auto.
  - intros k x. simpl. destruct (k =? 0)%nat; simpl; auto.
Defined.
